(** * Phishing-detection backend: a shallow embedding of [backend/app.py]

    The Flask service classifies e-mail text with a fine-tuned BERT model,
    analyses the sender's domain with a few rules and can pull the latest
    unread message from Gmail.  This file embeds the functions of
    [backend/app.py] and proves the properties its specification states.

    Conventions of the embedding.
    - A Python [str] is a Rocq [string] holding its UTF-8 bytes, so the
      literals below are the literals of the source.  The separators the
      code searches for (["@"], ["."], ["<"], [">"], newline) are ASCII and
      never occur inside a multi-byte sequence, so searching bytes and
      searching code points agree.  [PyStr.lower] is [str.lower] on ASCII
      text; where a property depends on what [str.lower] does, it is stated
      for [analyze_sender_with], which takes [str.lower] as a parameter.
    - Dictionaries returned by the Gmail API are records whose optional
      keys are [option] fields; the JSON a client posts to [/predict] is an
      arbitrary [json] value.
    - A Python exception is a value of [exn]; code that can raise returns
      in an error monad, and the route handlers run in a monad that also
      logs every call to an external collaborator. *)

From Stdlib Require Import Strings.String Strings.Ascii Lists.List Bool.Bool.
From Stdlib Require Import NArith.NArith ZArith.ZArith QArith.QArith QArith.Qround.
From Stdlib Require Import Arith.PeanoNat micromega.Lia micromega.Lqa Numbers.DecimalString.
Import ListNotations.

Set Warnings "-register-all".

Local Open Scope string_scope.
Local Open Scope list_scope.

(** ** Python string operations *)

Module PyStr.

(** [c.lower()] on an ASCII letter. *)
Definition lower_ascii (c : ascii) : ascii :=
  let n := N_of_ascii c in
  if ((65 <=? n) && (n <=? 90))%N then ascii_of_N (n + 32) else c.

(** [s.lower()] *)
Fixpoint lower (s : string) : string :=
  match s with
  | EmptyString => EmptyString
  | String c r => String (lower_ascii c) (lower r)
  end.

(** [needle in s] for strings: a substring test. *)
Fixpoint contains (needle s : string) : bool :=
  String.prefix needle s ||
  match s with
  | EmptyString => false
  | String _ r => contains needle r
  end.

(** [s.split(sep)] for a one-character separator; never the empty list. *)
Fixpoint split (sep : ascii) (s : string) : list string :=
  match s with
  | EmptyString => [EmptyString]
  | String c r =>
      if Ascii.eqb c sep then EmptyString :: split sep r
      else match split sep r with
           | h :: t => String c h :: t
           | [] => [String c EmptyString]
           end
  end.

(** [l[-1]] on a list of strings ([split] never returns the empty list). *)
Definition last_item (l : list string) : string := List.last l EmptyString.

(** [s.count(c)] for a one-character argument. *)
Fixpoint count (c : ascii) (s : string) : nat :=
  match s with
  | EmptyString => 0%nat
  | String d r => ((if Ascii.eqb d c then 1 else 0) + count c r)%nat
  end.

(** [x in l] for a list of strings. *)
Definition mem (x : string) (l : list string) : bool :=
  existsb (String.eqb x) l.

(** The character [c] occurs in [s]. *)
Definition occurs (c : ascii) (s : string) : Prop :=
  exists a b, s = (a ++ String c b)%string.

End PyStr.

(** ** Regular expressions of [analyze_sender] *)

Module Re.

Definition newline : ascii := ascii_of_nat 10.

(** The tail of [.+?>] once one character has been consumed: the lazy
    quantifier stops at the first [">"]; [.] does not match a newline. *)
Fixpoint lazy_tail (s : string) : option string :=
  match s with
  | EmptyString => None
  | String c r =>
      if Ascii.eqb c ">" then Some EmptyString
      else if Ascii.eqb c newline then None
      else option_map (String c) (lazy_tail r)
  end.

(** [(.+?)>] matched at the start of [s]; the result is group 1. *)
Definition match_group (s : string) : option string :=
  match s with
  | EmptyString => None
  | String c r =>
      if Ascii.eqb c newline then None
      else option_map (String c) (lazy_tail r)
  end.

(** [re.search(r"<(.+?)>", s)]: the leftmost position where the pattern
    matches; [Some g] carries [match.group(1)]. *)
Fixpoint search_angle (s : string) : option string :=
  match s with
  | EmptyString => None
  | String c r =>
      if Ascii.eqb c "<" then
        match match_group r with
        | Some g => Some g
        | None => search_angle r
        end
      else search_angle r
  end.

(** [re.search(r"(paypa1|netfl1x|g00gle|faceb00k)", s)] as a truth value:
    an alternation of literals matches somewhere iff one of them is a
    substring. *)
Definition search_typosquat (s : string) : bool :=
  existsb (fun k => PyStr.contains k s) ["paypa1"; "netfl1x"; "g00gle"; "faceb00k"].

End Re.

(** ** Sender analysis *)

(** One entry of [payload["headers"]]: [{"name": ..., "value": ...}]. *)
Record Header := mkHeader { name : string; value : string }.

(** The dictionary [analyze_sender] returns. *)
Record SenderAnalysis := mkSenderAnalysis {
  sender : string;
  domain : string;
  flags : list string
}.

(** [next((h["value"] for h in headers if h["name"].lower() == "from"), "")] *)
Fixpoint from_header (headers : list Header) : string :=
  match headers with
  | [] => ""
  | h :: t => if String.eqb (PyStr.lower (name h)) "from" then value h else from_header t
  end.

(** [match.group(1) if match else sender] *)
Definition sender_email (sender : string) : string :=
  match Re.search_angle sender with
  | Some g => g
  | None => sender
  end.

(** [email.split("@")[-1].lower() if "@" in email else "unknown"] *)
Definition email_domain (email : string) : string :=
  if PyStr.contains "@" email
  then PyStr.lower (PyStr.last_item (PyStr.split "@" email))
  else "unknown".

Definition suspicious_tlds : list string := ["xyz"; "top"; "ru"; "cn"].

Definition whitelist : list string :=
  ["google.com"; "microsoft.com"; "github.com"; "apple.com"; "linkedin.com"].

Definition flag_typosquatting : string := "Possible typosquatting".
Definition flag_tld : string := "Suspicious TLD".
Definition flag_subdomains : string := "Too many subdomains".
Definition flag_whitelisted : string := "✅ Whitelisted domain".

(** The four tests of [analyze_sender], in source order. *)
Definition rule_typosquatting (domain : string) : bool := Re.search_typosquat domain.
Definition rule_tld (domain : string) : bool :=
  PyStr.mem (PyStr.last_item (PyStr.split "." domain)) suspicious_tlds.
Definition rule_subdomains (domain : string) : bool := (3 <? PyStr.count "." domain)%nat.
Definition rule_whitelist (domain : string) : bool := PyStr.mem domain whitelist.

(** [flags.append(x)] under a condition. *)
Definition append_if (b : bool) (x : string) (flags : list string) : list string :=
  if b then flags ++ [x] else flags.

(** The rule block of [analyze_sender]: [flags] after the four [if]s. *)
Definition rule_flags (domain : string) : list string :=
  let flags := [] in
  let flags := append_if (rule_typosquatting domain) flag_typosquatting flags in
  let flags := append_if (rule_tld domain) flag_tld flags in
  let flags := append_if (rule_subdomains domain) flag_subdomains flags in
  let flags := append_if (rule_whitelist domain) flag_whitelisted flags in
  flags.

Definition analyze_sender (headers : list Header) : SenderAnalysis :=
  let sender := from_header headers in
  let email := sender_email sender in
  let domain := email_domain email in
  let flags := rule_flags domain in
  {| sender := email;
     domain := domain;
     flags := match flags with [] => ["None"] | _ => flags end |}.

(** [analyze_sender] with [str.lower] left open.  [str.lower] is a library
    function on Unicode text; [PyStr.lower] is what it does on ASCII text,
    and [analyze_sender] above is [analyze_sender_with PyStr.lower].  What
    is proved of [analyze_sender_with] for every [lower] holds of the code
    whatever the text. *)
Section AnyLower.

Variable lower : string -> string.

Fixpoint from_header_with (headers : list Header) : string :=
  match headers with
  | [] => ""
  | h :: t => if String.eqb (lower (name h)) "from" then value h else from_header_with t
  end.

Definition email_domain_with (email : string) : string :=
  if PyStr.contains "@" email
  then lower (PyStr.last_item (PyStr.split "@" email))
  else "unknown".

Definition analyze_sender_with (headers : list Header) : SenderAnalysis :=
  let sender := from_header_with headers in
  let email := sender_email sender in
  let domain := email_domain_with email in
  let flags := rule_flags domain in
  {| sender := email;
     domain := domain;
     flags := match flags with [] => ["None"] | _ => flags end |}.

(** The value [analyze_sender] starts from: that of the first header whose
    name is ["from"] once in lower case, the empty string without one. *)
Definition from_value_with (hs : list Header) (v : string) : Prop :=
  (exists pre h post,
      hs = (pre ++ h :: post)%list
      /\ (forall h', In h' pre -> lower (name h') <> "from")
      /\ lower (name h) = "from"
      /\ v = value h)
  \/ ((forall h, In h hs -> lower (name h) <> "from") /\ v = EmptyString).

End AnyLower.

(** *** Vocabulary of the specification of [analyze_sender] *)

(** [c.upper()] on an ASCII letter. *)
Definition upper_ascii (c : ascii) : ascii :=
  let n := N_of_ascii c in
  if ((97 <=? n) && (n <=? 122))%N then ascii_of_N (n - 32) else c.

(** Every way of writing [s] in upper and lower case. *)
Fixpoint case_variants (s : string) : list string :=
  match s with
  | EmptyString => [EmptyString]
  | String c r =>
      map (String (PyStr.lower_ascii c)) (case_variants r)
      ++ map (String (upper_ascii c)) (case_variants r)
  end.

(** The sixteen spellings of the header name: [from], [From], [FROM], ... *)
Definition from_spellings : list string := case_variants "from".

(** The value [analyze_sender] starts from: that of the first header named
    [From] in any case, the empty string without one. *)
Definition from_value_of (hs : list Header) (v : string) : Prop :=
  (exists pre h post,
      hs = (pre ++ h :: post)%list
      /\ (forall h', In h' pre -> ~ In (name h') from_spellings)
      /\ In (name h) from_spellings
      /\ v = value h)
  \/ ((forall h, In h hs -> ~ In (name h) from_spellings) /\ v = EmptyString).

(** [addr] stands between angle brackets somewhere in [v]: it is not empty
    and has no line break. *)
Definition bracketed (v addr : string) : Prop :=
  exists pre post,
    v = (pre ++ "<" ++ addr ++ ">" ++ post)%string
    /\ addr <> EmptyString
    /\ ~ PyStr.occurs Re.newline addr.

(** The flags that mark a sender as suspicious. *)
Definition suspicion_flags : list string :=
  [flag_typosquatting; flag_tld; flag_subdomains].

(** The flags a list of fired rules stands for: [b] says whether the rule
    fired, the string is its flag. *)
Fixpoint fired (rules : list (bool * string)) : list string :=
  match rules with
  | [] => []
  | (b, f) :: t => if b then f :: fired t else fired t
  end.

(** ** Exceptions *)

(** The exceptions of the embedding.  [RemoteError] stands for whatever an
    external collaborator raises (the OAuth flow, the Gmail client, the
    tokenizer or the model); every one is a subclass of [Exception]. *)
Inductive exn :=
| KeyError (key : string)
| KeyErrorInt (key : nat)
| TypeError (msg : string)
| ValueError (msg : string)
| BinasciiError (msg : string)
| IndexError (msg : string)
| RemoteError (msg : string).

(** [str(n)] for a natural number. *)
Definition decimal (n : nat) : string :=
  NilZero.string_of_uint (Nat.to_uint n).

(** [str(e)]: the message, and for a [KeyError] the [repr] of the key: a
    string key in quotes (the keys of the code are plain words, which
    [repr] puts between single quotes), an integer key as it is. *)
Definition str_exn (e : exn) : string :=
  match e with
  | KeyError k => "'" ++ k ++ "'"
  | KeyErrorInt n => decimal n
  | TypeError m | ValueError m | BinasciiError m | IndexError m | RemoteError m => m
  end.

(** Code that returns a value or raises. *)
Definition result (A : Type) : Type := (exn + A)%type.

(** ** Decoding: [base64.urlsafe_b64decode] and [bytes.decode] *)

Module Codec.

Definition bytes := list Byte.byte.

Definition code (c : ascii) : N := N_of_ascii c.
Definition between (lo hi n : N) : bool := ((lo <=? n) && (n <=? hi))%N.

(** [s.translate(_urlsafe_decode_translation)]: ["-"] and ["_"] become
    ["+"] and ["/"]. *)
Definition urlsafe_translate (c : ascii) : ascii :=
  if Ascii.eqb c "-" then "+"%char
  else if Ascii.eqb c "_" then "/"%char
  else c.

(** The six-bit value of a character of the standard alphabet. *)
Definition table_a2b (c : ascii) : option N :=
  let n := code c in
  if between 65 90 n then Some (n - 65)%N
  else if between 97 122 n then Some (n - 71)%N
  else if between 48 57 n then Some (n + 4)%N
  else if Ascii.eqb c "+" then Some 62%N
  else if Ascii.eqb c "/" then Some 63%N
  else None.

Definition byte_of (n : N) : Byte.byte :=
  match Byte.of_N (n mod 256) with
  | Some b => b
  | None => Byte.x00
  end.

Definition decimal (n : nat) : string :=
  NilZero.string_of_uint (Nat.to_uint n).

(** The loop of [binascii.a2b_base64] without strict mode: characters
    outside the alphabet are skipped, a pad that completes a quad ends
    the input, and data that stops inside a quad is an error.  [out] is
    the output so far, last byte first. *)
Fixpoint a2b_loop (s : string) (quad_pos leftchar pads : N) (out : bytes)
  : result bytes :=
  match s with
  | EmptyString =>
      if (quad_pos =? 0)%N then inr (rev out)
      else if (quad_pos =? 1)%N then
        inl (BinasciiError
               ("Invalid base64-encoded string: number of data characters ("
                ++ decimal (length out / 3 * 4 + 1)
                ++ ") cannot be 1 more than a multiple of 4"))
      else inl (BinasciiError "Incorrect padding")
  | String c r =>
      if Ascii.eqb c "=" then
        if (2 <=? quad_pos)%N then
          if (4 <=? quad_pos + (pads + 1))%N then inr (rev out)
          else a2b_loop r quad_pos leftchar (pads + 1)%N out
        else a2b_loop r quad_pos leftchar pads out
      else
        match table_a2b c with
        | None => a2b_loop r quad_pos leftchar pads out
        | Some v =>
            if (quad_pos =? 0)%N then a2b_loop r 1%N v 0%N out
            else if (quad_pos =? 1)%N then
              a2b_loop r 2%N (N.land v 15) 0%N
                (byte_of (N.lor (N.shiftl leftchar 2) (N.shiftr v 4)) :: out)
            else if (quad_pos =? 2)%N then
              a2b_loop r 3%N (N.land v 3) 0%N
                (byte_of (N.lor (N.shiftl leftchar 4) (N.shiftr v 2)) :: out)
            else
              a2b_loop r 0%N 0%N 0%N
                (byte_of (N.lor (N.shiftl leftchar 6) v) :: out)
        end
  end.

Fixpoint is_ascii (s : string) : bool :=
  match s with
  | EmptyString => true
  | String c r => (code c <? 128)%N && is_ascii r
  end.

Fixpoint map_string (f : ascii -> ascii) (s : string) : string :=
  match s with
  | EmptyString => EmptyString
  | String c r => String (f c) (map_string f r)
  end.

(** [base64.urlsafe_b64decode(s)] for a [str] argument. *)
Definition urlsafe_b64decode (s : string) : result bytes :=
  if is_ascii s then a2b_loop (map_string urlsafe_translate s) 0 0 0 []
  else inl (ValueError "string argument should contain only ASCII characters").

Definition cont (n : N) : bool := between 128 191 n.

(** Well-formed UTF-8 sequences of two, three and four bytes. *)
Definition seq2 (a b : N) : bool := between 194 223 a && cont b.
Definition seq3 (a b c : N) : bool :=
  ((a =? 224)%N && between 160 191 b && cont c)
  || ((between 225 236 a || between 238 239 a) && cont b && cont c)
  || ((a =? 237)%N && between 128 159 b && cont c).
Definition seq4 (a b c d : N) : bool :=
  ((a =? 240)%N && between 144 191 b && cont c && cont d)
  || (between 241 243 a && cont b && cont c && cont d)
  || ((a =? 244)%N && between 128 143 b && cont c && cont d).

(** The bytes [b.decode("utf-8", errors="ignore")] keeps: every
    well-formed sequence, nothing else.  A byte that starts no well-formed
    sequence is dropped and decoding resumes at the next byte. *)
Fixpoint keep_utf8 (bs : bytes) : bytes :=
  match bs with
  | [] => []
  | b0 :: r0 =>
      let n0 := Byte.to_N b0 in
      if (n0 <? 128)%N then b0 :: keep_utf8 r0
      else
        match r0 with
        | [] => keep_utf8 r0
        | b1 :: r1 =>
            let n1 := Byte.to_N b1 in
            if seq2 n0 n1 then b0 :: b1 :: keep_utf8 r1
            else
              match r1 with
              | [] => keep_utf8 r0
              | b2 :: r2 =>
                  let n2 := Byte.to_N b2 in
                  if seq3 n0 n1 n2 then b0 :: b1 :: b2 :: keep_utf8 r2
                  else
                    match r2 with
                    | [] => keep_utf8 r0
                    | b3 :: r3 =>
                        if seq4 n0 n1 n2 (Byte.to_N b3)
                        then b0 :: b1 :: b2 :: b3 :: keep_utf8 r3
                        else keep_utf8 r0
                    end
              end
        end
  end.

(** [b.decode("utf-8", errors="ignore")] *)
Definition decode_utf8_ignore (bs : bytes) : string :=
  string_of_list_byte (keep_utf8 bs).

End Codec.

(** ** Gmail message payloads *)

(** [part["body"]]: only the key [data] is read. *)
Record MessagePartBody := mkBody { data : option string }.

(** A [MessagePart] of the Gmail API.  A key the dictionary may lack is an
    [option] field: [None] is an absent key. *)
Inductive MessagePart := mkPart {
  mimeType : option string;
  headers : option (list Header);
  body : option MessagePartBody;
  parts : option (list MessagePart)
}.

(** [d.get(key, default)] *)
Definition get_default {A : Type} (field : option A) (default : A) : A :=
  match field with
  | Some v => v
  | None => default
  end.

(** [base64.urlsafe_b64decode(data).decode("utf-8", errors="ignore")] *)
Definition decode_data (data : string) : result string :=
  match Codec.urlsafe_b64decode data with
  | inl e => inl e
  | inr bs => inr (Codec.decode_utf8_ignore bs)
  end.

(** The [for part in payload["parts"]] loop of [extract_body]:
    [inr (Some s)] when the loop returns [s], [inr None] when it runs to
    its end, [inl e] when it raises. *)
Fixpoint scan_parts (ps : list MessagePart) : result (option string) :=
  match ps with
  | [] => inr None
  | part :: rest =>
      match mimeType part with
      | None => inl (KeyError "mimeType")
      | Some m =>
          if String.eqb m "text/plain" then
            match body part with
            | None => inl (KeyError "body")
            | Some b =>
                match decode_data (get_default (data b) "") with
                | inl e => inl e
                | inr s => inr (Some s)
                end
            end
          else scan_parts rest
      end
  end.

Definition extract_body (payload : MessagePart) : result string :=
  let loop :=
    match parts payload with
    | Some ps => scan_parts ps
    | None => inr None
    end in
  match loop with
  | inl e => inl e
  | inr (Some s) => inr s
  | inr None =>
      match body payload with
      | Some b =>
          match data b with
          | Some d => decode_data d
          | None => inr ""
          end
      | None => inr ""
      end
  end.

(** The empty dictionary [{}]. *)
Definition empty_part : MessagePart := mkPart None None None None.

Definition is_plain (p : MessagePart) : bool :=
  match mimeType p with
  | Some m => String.eqb m "text/plain"
  | None => false
  end.

(** What the specification describes, for comparison with [extract_body]:
    a depth-first search of the whole part tree (the payload itself, then
    its parts in order, each with its own parts) for the first part of type
    [text/plain]. *)
Fixpoint spec_first_plain (p : MessagePart) : option MessagePart :=
  if is_plain p then Some p
  else
    match p with
    | mkPart _ _ _ (Some ps) =>
        (fix first_in (l : list MessagePart) : option MessagePart :=
           match l with
           | [] => None
           | q :: r =>
               match spec_first_plain q with
               | Some x => Some x
               | None => first_in r
               end
           end) ps
    | mkPart _ _ _ None => None
    end.

(** The specification's [extract_body]: the decoded data of that part, the
    empty string when the tree has no such part. *)
Definition spec_extract_body (payload : MessagePart) : result string :=
  match spec_first_plain payload with
  | Some p =>
      decode_data
        (match body p with
         | Some b => get_default (data b) ""
         | None => ""
         end)
  | None => inr ""
  end.

Definition plain_part (d : string) : MessagePart :=
  mkPart (Some "text/plain") None (Some (mkBody (Some d))) None.

Definition container (mime : string) (ps : list MessagePart) : MessagePart :=
  mkPart (Some mime) None (Some (mkBody None)) (Some ps).

(** *** Vocabulary of the specification of [extract_body] *)

(** A part with a type other than [text/plain]. *)
Definition not_plain (p : MessagePart) : Prop :=
  exists m, mimeType p = Some m /\ m <> "text/plain".

(** When [extract_body] raises, and what: at the first of the payload's
    own parts that is not of another type, for want of [mimeType], for
    want of [body] in a plain part, or with the exception of the base64
    decoder on the data of that plain part; and, when no part is plain,
    with the exception of the decoder on the data of the payload's own
    body. *)
Inductive extraction_raises (payload : MessagePart) : exn -> Prop :=
| raises_without_type pre p post :
    parts payload = Some (pre ++ p :: post) ->
    Forall not_plain pre ->
    mimeType p = None ->
    extraction_raises payload (KeyError "mimeType")
| raises_without_body pre p post :
    parts payload = Some (pre ++ p :: post) ->
    Forall not_plain pre ->
    mimeType p = Some "text/plain" ->
    body p = None ->
    extraction_raises payload (KeyError "body")
| raises_on_part_data pre p post b e :
    parts payload = Some (pre ++ p :: post) ->
    Forall not_plain pre ->
    mimeType p = Some "text/plain" ->
    body p = Some b ->
    Codec.urlsafe_b64decode (get_default (data b) "") = inl e ->
    extraction_raises payload e
| raises_on_own_data d e :
    parts payload = None \/ (exists ps, parts payload = Some ps /\ Forall not_plain ps) ->
    body payload = Some (mkBody (Some d)) ->
    Codec.urlsafe_b64decode d = inl e ->
    extraction_raises payload e.

(** The characters of base64 in its URL-safe form. *)
Definition base64url_alphabet : list ascii :=
  list_ascii_of_string
    "ABCDEFGHIJKLMNOPQRSTUVWXYZabcdefghijklmnopqrstuvwxyz0123456789-_".

(** The part without the parts below it. *)
Definition prune (p : MessagePart) : MessagePart :=
  mkPart (mimeType p) (headers p) (body p) None.

(** The payload with its own parts only: everything deeper is cut off. *)
Definition top_level_only (payload : MessagePart) : MessagePart :=
  mkPart (mimeType payload) (headers payload) (body payload)
         (option_map (map prune) (parts payload)).

(** A message whose plain text sits one level down, as in a mail with an
    attachment: [multipart/mixed] around [multipart/alternative]. *)
Definition nested_message : MessagePart :=
  container "multipart/mixed"
    [container "multipart/alternative"
       [plain_part "aGk="; mkPart (Some "text/html") None (Some (mkBody (Some "PGI-"))) None];
     mkPart (Some "application/pdf") None (Some (mkBody None)) None].

(** A message that is a single HTML body, without parts. *)
Definition html_only_message : MessagePart :=
  mkPart (Some "text/html") None (Some (mkBody (Some "PGI-"))) None.

(** A message whose plain part carries base64 without its padding. *)
Definition unpadded_message : MessagePart :=
  container "multipart/alternative" [plain_part "aGk"].

(** ** JSON values *)

(** What [request.get_json()] returns and [jsonify] takes: [JNull] is
    [None], a number is an [int] or a [float], an object is a [dict]. *)
Inductive json :=
| JNull
| JBool (b : bool)
| JInt (z : Z)
| JFloat (q : Q)
| JStr (s : string)
| JArr (l : list json)
| JObj (kv : list (string * json)).

(** [d[key]] on the items of a [dict]. *)
Fixpoint lookup (key : string) (kv : list (string * json)) : option json :=
  match kv with
  | [] => None
  | (k, v) :: t => if String.eqb k key then Some v else lookup key t
  end.

(** [bool(x)] *)
Definition truthy (x : json) : bool :=
  match x with
  | JNull => false
  | JBool b => b
  | JInt z => negb (z =? 0)%Z
  | JFloat q => negb (Qeq_bool q 0)
  | JStr s => negb (String.eqb s "")
  | JArr l => match l with [] => false | _ => true end
  | JObj kv => match kv with [] => false | _ => true end
  end.

Definition type_name (x : json) : string :=
  match x with
  | JNull => "NoneType"
  | JBool _ => "bool"
  | JInt _ => "int"
  | JFloat _ => "float"
  | JStr _ => "str"
  | JArr _ => "list"
  | JObj _ => "dict"
  end.

(** [x == "text"] *)
Definition is_text (x : json) : bool :=
  match x with
  | JStr s => String.eqb s "text"
  | _ => false
  end.

(** ["text" in data]: a key of a [dict], an element of a [list], a
    substring of a [str]; any other value is not iterable. *)
Definition text_in (data : json) : result bool :=
  match data with
  | JObj kv => inr (match lookup "text" kv with Some _ => true | None => false end)
  | JArr l => inr (existsb is_text l)
  | JStr s => inr (PyStr.contains "text" s)
  | _ => inl (TypeError ("argument of type '" ++ type_name data ++ "' is not iterable"))
  end.

(** [data["text"]] *)
Definition get_text (data : json) : result json :=
  match data with
  | JObj kv =>
      match lookup "text" kv with
      | Some v => inr v
      | None => inl (KeyError "text")
      end
  | JArr _ => inl (TypeError "list indices must be integers or slices, not str")
  | JStr _ => inl (TypeError "string indices must be integers, not 'str'")
  | _ => inl (TypeError ("'" ++ type_name data ++ "' object is not subscriptable"))
  end.

(** ** The handler monad: exceptions and a log of external calls *)

(** A call that leaves the process: the OAuth flow, the two Gmail requests
    and the classifier (tokenizer and model). *)
Inductive event :=
| EvAuth
| EvList
| EvGet (msg_id : string)
| EvClassify (text : json).

Definition is_classify (e : event) : bool :=
  match e with
  | EvClassify _ => true
  | _ => false
  end.

(** A computation takes the log so far and returns its outcome with the
    log extended; the log survives an exception. *)
Definition M (A : Type) : Type := list event -> result A * list event.

Definition ret {A : Type} (x : A) : M A := fun log => (inr x, log).

Definition raise {A : Type} (e : exn) : M A := fun log => (inl e, log).

Definition bind {A B : Type} (c : M A) (k : A -> M B) : M B :=
  fun log =>
    match c log with
    | (inr x, log') => k x log'
    | (inl e, log') => (inl e, log')
    end.

(** A pure computation that may raise. *)
Definition lift {A : Type} (r : result A) : M A := fun log => (r, log).

(** An external call: logged, then its outcome. *)
Definition call {A : Type} (ev : event) (outcome : result A) : M A :=
  fun log => (outcome, log ++ [ev]).

(** [try: c  except Exception as e: handler(e)] *)
Definition try_except {A : Type} (c : M A) (handler : exn -> M A) : M A :=
  fun log =>
    match c log with
    | (inl e, log') => handler e log'
    | ok => ok
    end.

(** Running a handler on a fresh request. *)
Definition run {A : Type} (c : M A) : result A * list event := c [].

Declare Scope handler_scope.
Delimit Scope handler_scope with handler.
Notation "x <- c ;; k" := (bind c (fun x => k))
  (at level 61, c at next level, right associativity) : handler_scope.
Local Open Scope handler_scope.

(** ** Rounding *)

(** Round to the nearest integer, ties to the even one. *)
Definition round_half_even (x : Q) : Z :=
  let f := Qfloor x in
  match Qcompare (x - inject_Z f) (1 # 2) with
  | Lt => f
  | Gt => (f + 1)%Z
  | Eq => if Z.even f then f else (f + 1)%Z
  end.

(** [round(x, ndigits)] on an exact value. *)
Definition py_round (x : Q) (ndigits : nat) : Q :=
  let scale := (10 ^ Z.of_nat ndigits)%Z in
  inject_Z (round_half_even (x * inject_Z scale)) / inject_Z scale.

(** [c] is [x] rounded to two decimal places: a whole number of
    hundredths, no further from [x] than half a hundredth, and the even
    number of hundredths when [x] lies half-way between two. *)
Definition rounded_to_2_places (x c : Q) : Prop :=
  exists z : Z,
    c == inject_Z z / 100
    /\ - (1 # 200) <= c - x /\ c - x <= 1 # 200
    /\ (c - x == 1 # 200 \/ c - x == - (1 # 200) -> Z.even z = true).

(** ** Responses and the Gmail client *)

(** The dictionary [predict_body] returns. *)
Record ClassificationResult := mkResult {
  prediction : string;
  confidence : Q
}.

(** What a route returns: [jsonify(body), status] (200 when omitted). *)
Record Response := mkResponse {
  status : nat;
  json_body : json
}.

Definition error_body (msg : string) : json := JObj [("error", JStr msg)].

Definition json_of_result (r : ClassificationResult) : json :=
  JObj [("prediction", JStr (prediction r)); ("confidence", JFloat (confidence r))].

Definition json_of_sender (a : SenderAnalysis) : json :=
  JObj [("sender", JStr (sender a)); ("domain", JStr (domain a));
        ("flags", JArr (map JStr (flags a)))].

(** One entry of [results["messages"]]. *)
Record MessageRef := mkRef { id : string }.

(** The answer of [messages().list(...)]. *)
Record ListResponse := mkList { messages : option (list MessageRef) }.

(** The answer of [messages().get(...)]. *)
Record Message := mkMessage {
  snippet : option string;
  payload : option MessagePart
}.

(** The outcome of each external call of one request to [/fetch_gmail]:
    [get_gmail_service()], [list(...).execute()] and, per message id,
    [get(...).execute()]. *)
Record GmailApi := mkApi {
  get_gmail_service : result unit;
  messages_list : result ListResponse;
  messages_get : string -> result Message
}.

(** [s[:n]], counting code points: a continuation byte belongs to the
    character before it. *)
Fixpoint slice_to (n : nat) (s : string) : string :=
  match s with
  | EmptyString => EmptyString
  | String c r =>
      if Codec.cont (Codec.code c) then String c (slice_to n r)
      else match n with
           | O => EmptyString
           | S k => String c (slice_to k r)
           end
  end.

(** [LABEL_MAP = {0: "Legitimate", 1: "Phishing"}] *)
Definition LABEL_MAP : list (nat * string) := [(0%nat, "Legitimate"); (1%nat, "Phishing")].

Fixpoint label_of (m : list (nat * string)) (i : nat) : result string :=
  match m with
  | [] => inl (KeyErrorInt i)
  | (k, v) :: t => if Nat.eqb k i then inr v else label_of t i
  end.

(** [probs.argmax()]: the index of the first occurrence of the maximum. *)
Fixpoint argmax_from (best_i : nat) (best : Q) (i : nat) (l : list Q) : nat :=
  match l with
  | [] => best_i
  | x :: r =>
      if Qle_bool x best then argmax_from best_i best (S i) r
      else argmax_from i x (S i) r
  end.

Definition argmax (l : list Q) : result nat :=
  match l with
  | [] => inl (ValueError "attempt to get argmax of an empty sequence")
  | x :: r => inr (argmax_from 0 x 1 r)
  end.

(** [probs[i]] *)
Definition item (l : list Q) (i : nat) : result Q :=
  match nth_error l i with
  | Some x => inr x
  | None => inl (IndexError "index out of bounds")
  end.

(** ** The classifier and the routes *)

Section Service.

(** Lines 59-64 of [predict_body]: tokenizer, forward pass and softmax,
    giving the row of class probabilities, or raising.  Probabilities are
    exact rationals here; the model's floating-point arithmetic is not
    part of the embedding. *)
Variable bert_probs : json -> result (list Q).

(** [html.unescape] *)
Variable html_unescape : string -> string.

Definition predict_body (text : json) : M ClassificationResult :=
  probs <- call (EvClassify text) (bert_probs text) ;;
  pred_idx <- lift (argmax probs) ;;
  label <- lift (label_of LABEL_MAP pred_idx) ;;
  p <- lift (item probs pred_idx) ;;
  let confidence := py_round (p * 100) 2 in
  ret {| prediction := label; confidence := confidence |}.

(** [POST /predict]; [data] is what [request.get_json()] returned.  An
    exception that leaves the handler is answered by Flask itself. *)
Definition predict (data : json) : M Response :=
  missing <- (if negb (truthy data) then ret true
              else present <- lift (text_in data) ;; ret (negb present)) ;;
  if (missing : bool) then ret (mkResponse 400 (error_body "No text provided"))
  else
    text <- lift (get_text data) ;;
    body_result <- predict_body text ;;
    ret (mkResponse 200 (json_of_result body_result)).

(** The [try] block of [fetch_gmail]. *)
Definition fetch_gmail_try (service : GmailApi) : M Response :=
  _ <- call EvAuth (get_gmail_service service) ;;
  results <- call EvList (messages_list service) ;;
  let messages := get_default (messages results) [] in
  match messages with
  | [] => ret (mkResponse 404 (error_body "No unread emails found"))
  | first :: _ =>
      let msg_id := id first in
      msg <- call (EvGet msg_id) (messages_get service msg_id) ;;
      let snippet := get_default (snippet msg) "" in
      headers <- match payload msg with
                 | Some p => ret (get_default (headers p) [])
                 | None => raise (KeyError "payload")
                 end ;;
      body_text <- lift (extract_body (get_default (payload msg) empty_part)) ;;
      let sender_info := analyze_sender headers in
      body_result <- predict_body
                       (JStr (if String.eqb body_text "" then snippet else body_text)) ;;
      ret (mkResponse 200
             (JObj [("email_snippet", JStr (slice_to 80 (html_unescape snippet) ++ "..."));
                    ("body_prediction", json_of_result body_result);
                    ("sender_info", json_of_sender sender_info)]))
  end.

(** [GET /fetch_gmail] *)
Definition fetch_gmail (service : GmailApi) : M Response :=
  try_except (fetch_gmail_try service)
    (fun e => ret (mkResponse 500 (error_body (str_exn e)))).

End Service.

(** A classifier for the examples: it accepts strings only and always
    answers with the same probabilities. *)
Definition sample_bert (p0 p1 : Q) (text : json) : result (list Q) :=
  match text with
  | JStr _ => inr [p0; p1]
  | _ => inl (ValueError "text input must be of type `str`")
  end.

(** *** Vocabulary of the specification of the routes *)

(** The text [fetch_gmail] classifies: the body, or the snippet when the
    body is empty. *)
Definition text_to_classify (body_text : string) (msg : Message) : json :=
  JStr (if String.eqb body_text "" then get_default (snippet msg) "" else body_text).

(** Where an exception can arise while [/fetch_gmail] is handled, with the
    exception and the external calls made up to it: authentication, the
    two requests to the mail API, reading and decoding the payload, and
    classification. *)
Inductive fetch_failure (bert_probs : json -> result (list Q)) (service : GmailApi)
  : exn -> list event -> Prop :=
| fail_auth e :
    get_gmail_service service = inl e ->
    fetch_failure bert_probs service e [EvAuth]
| fail_list u e :
    get_gmail_service service = inr u ->
    messages_list service = inl e ->
    fetch_failure bert_probs service e [EvAuth; EvList]
| fail_get u results first rest e :
    get_gmail_service service = inr u ->
    messages_list service = inr results ->
    messages results = Some (first :: rest) ->
    messages_get service (id first) = inl e ->
    fetch_failure bert_probs service e [EvAuth; EvList; EvGet (id first)]
| fail_payload u results first rest msg :
    get_gmail_service service = inr u ->
    messages_list service = inr results ->
    messages results = Some (first :: rest) ->
    messages_get service (id first) = inr msg ->
    payload msg = None ->
    fetch_failure bert_probs service (KeyError "payload") [EvAuth; EvList; EvGet (id first)]
| fail_decode u results first rest msg p e :
    get_gmail_service service = inr u ->
    messages_list service = inr results ->
    messages results = Some (first :: rest) ->
    messages_get service (id first) = inr msg ->
    payload msg = Some p ->
    extract_body p = inl e ->
    fetch_failure bert_probs service e [EvAuth; EvList; EvGet (id first)]
| fail_classify u results first rest msg p body_text e :
    get_gmail_service service = inr u ->
    messages_list service = inr results ->
    messages results = Some (first :: rest) ->
    messages_get service (id first) = inr msg ->
    payload msg = Some p ->
    extract_body p = inr body_text ->
    fst (run (predict_body bert_probs (text_to_classify body_text msg))) = inl e ->
    fetch_failure bert_probs service e
      [EvAuth; EvList; EvGet (id first); EvClassify (text_to_classify body_text msg)].

(** An account without unread mail. *)
Definition empty_inbox : GmailApi :=
  mkApi (inr tt) (inr (mkList None)) (fun _ => inl (RemoteError "Requested entity was not found."))%string.

(** An account whose credentials are refused. *)
Definition refused_login : GmailApi :=
  mkApi (inl (RemoteError "invalid_grant: Token has been expired or revoked."))
        (inr (mkList None))
        (fun _ => inl (RemoteError "Requested entity was not found."))%string.

(** An account with one unread message, [nested_message] or any other
    payload. *)
Definition one_unread (p : MessagePart) : GmailApi :=
  mkApi (inr tt) (inr (mkList (Some [mkRef "18c2f"])))
        (fun _ => inr (mkMessage (Some "Hello &amp; welcome") (Some p)))%string.

(** ** Credentials, the token file and the scripts *)

(** What the code reads of a [google.oauth2.credentials.Credentials]. *)
Record Credentials := mkCredentials {
  access_token : string;
  valid : bool;
  expired : bool;
  refresh_token : option string
}.

(** [bool(creds.refresh_token)] *)
Definition has_refresh_token (c : Credentials) : bool :=
  match refresh_token c with
  | Some t => negb (String.eqb t "")
  | None => false
  end.

Module Account.

(** What the scripts do outside the process, in order. *)
Inductive step :=
| Consent
| Refresh
| WriteToken
| ListMessages (label_ids : list string) (max_results : nat)
| GetMessage (msg_id : string)
| MarkRead (msg_id : string)
| Print (line : string).

(** The state the scripts act on: the text of [token.json], [None] when
    there is no such file, and the steps taken so far. *)
Record World := mkWorld {
  token_file : option string;
  steps : list step
}.

(** The library calls and the outcome of each external call:
    [Credentials.from_authorized_user_file] on the text of the file
    (the credentials it loads carry what [valid], [expired] and
    [refresh_token] give at that moment), reading [credentials.json], the
    consent flow in the browser, [creds.refresh], opening [token.json] for
    writing, [creds.to_json()], [token.write], [build], and the three
    requests to the mail API. *)
Record Env := mkEnv {
  from_authorized_user_file : string -> result Credentials;
  from_client_secrets_file : result unit;
  run_local_server : result Credentials;
  refresh : Credentials -> result Credentials;
  open_token : result unit;
  to_json : Credentials -> result string;
  write : result unit;
  build : result unit;
  list_messages : list string -> nat -> result ListResponse;
  get_message : string -> result Message;
  modify_message : string -> result unit
}.

(** Computations on the world that may raise. *)
Definition ST (A : Type) : Type := World -> result A * World.

Definition ret {A : Type} (x : A) : ST A := fun w => (inr x, w).

Definition raise {A : Type} (e : exn) : ST A := fun w => (inl e, w).

Definition bind {A B : Type} (c : ST A) (k : A -> ST B) : ST B :=
  fun w =>
    match c w with
    | (inr x, w') => k x w'
    | (inl e, w') => (inl e, w')
    end.

Definition lift {A : Type} (r : result A) : ST A := fun w => (r, w).

(** An external call: recorded, then its outcome. *)
Definition step_of {A : Type} (s : step) (outcome : result A) : ST A :=
  fun w => (outcome, mkWorld (token_file w) (steps w ++ [s])).

Declare Scope world_scope.
Delimit Scope world_scope with world.
Notation "x <- c ;; k" := (bind c (fun x => k))
  (at level 61, c at next level, right associativity) : world_scope.
Local Open Scope world_scope.

(** [creds = None], then [Credentials.from_authorized_user_file] when the
    file exists. *)
Definition read_token (env : Env) : ST (option Credentials) :=
  fun w =>
    match token_file w with
    | None => (inr None, w)
    | Some text =>
        match from_authorized_user_file env text with
        | inr c => (inr (Some c), w)
        | inl e => (inl e, w)
        end
    end.

(** [with open(TOKEN_PATH, "w") as token: token.write(creds.to_json())].
    Opening for writing empties the file (or creates it empty); when
    [to_json] or [write] raises after that, the file is left empty. *)
Definition write_token (env : Env) (c : Credentials) : ST unit :=
  fun w =>
    match open_token env with
    | inl e => (inl e, w)
    | inr _ =>
        match to_json env c with
        | inl e => (inl e, mkWorld (Some "") (steps w))
        | inr text =>
            match write env with
            | inl e => (inl e, mkWorld (Some "") (steps w))
            | inr _ => (inr tt, mkWorld (Some text) (steps w ++ [WriteToken]))
            end
        end
    end.

(** [InstalledAppFlow.from_client_secrets_file(...)], then
    [flow.run_local_server(port=0)]. *)
Definition consent_flow (env : Env) : ST Credentials :=
  _ <- lift (from_client_secrets_file env) ;;
  step_of Consent (run_local_server env).

(** [get_gmail_service] of [app.py] and of [gmail_fetch.py] (the two differ
    in [SCOPES] only).  The service it returns is identified with the
    credentials it was built with. *)
Definition get_gmail_service (env : Env) : ST Credentials :=
  creds <- read_token env ;;
  creds <- match creds with
           | Some c =>
               if valid c then ret c
               else (c' <- consent_flow env ;; _ <- write_token env c' ;; ret c')
           | None => c' <- consent_flow env ;; _ <- write_token env c' ;; ret c'
           end ;;
  _ <- lift (build env) ;;
  ret creds.

End Account.

Module GmailFetch.

Import Account.
Local Open Scope world_scope.

(** The loop of [get_body]: as in [extract_body], but the data is read
    with [part["body"]["data"]]. *)
Fixpoint scan_parts (ps : list MessagePart) : result (option string) :=
  match ps with
  | [] => inr None
  | part :: rest =>
      match mimeType part with
      | None => inl (KeyError "mimeType")
      | Some m =>
          if String.eqb m "text/plain" then
            match body part with
            | None => inl (KeyError "body")
            | Some b =>
                match data b with
                | None => inl (KeyError "data")
                | Some d =>
                    match decode_data d with
                    | inl e => inl e
                    | inr s => inr (Some s)
                    end
                end
            end
          else scan_parts rest
      end
  end.

(** [get_body], the local function of [fetch_latest_email_text]. *)
Definition get_body (payload : MessagePart) : result string :=
  let loop :=
    match parts payload with
    | Some ps => scan_parts ps
    | None => inr None
    end in
  match loop with
  | inl e => inl e
  | inr (Some s) => inr s
  | inr None =>
      match body payload with
      | Some b =>
          match data b with
          | Some d => decode_data d
          | None => inr ""
          end
      | None => inr ""
      end
  end.

(** The body of [for msg in messages]; [email_texts] is the list so far. *)
Fixpoint fetch_loop (env : Env) (messages : list MessageRef) (email_texts : list string)
  : ST (list string) :=
  match messages with
  | [] => ret email_texts
  | msg :: rest =>
      let msg_id := id msg in
      full_msg <- step_of (GetMessage msg_id) (get_message env msg_id) ;;
      let payload := get_default (payload full_msg) empty_part in
      body <- lift (get_body payload) ;;
      let email_texts :=
        email_texts ++ [if String.eqb body "" then get_default (snippet full_msg) "" else body] in
      _ <- step_of (MarkRead msg_id) (modify_message env msg_id) ;;
      fetch_loop env rest email_texts
  end.

Definition fetch_latest_email_text (env : Env) (n : nat) : ST (list string) :=
  _ <- get_gmail_service env ;;
  results <- step_of (ListMessages ["UNREAD"] n) (list_messages env ["UNREAD"] n) ;;
  let messages := get_default (messages results) [] in
  fetch_loop env messages [].

End GmailFetch.

Module GmailTest.

Import Account.
Local Open Scope world_scope.

Definition print (line : string) : ST unit := step_of (Print line) (inr tt).

(** The loop [for msg in messages] of [main]. *)
Fixpoint print_snippets (env : Env) (messages : list MessageRef) : ST unit :=
  match messages with
  | [] => ret tt
  | msg :: rest =>
      m <- step_of (GetMessage (id msg)) (get_message env (id msg)) ;;
      snippet <- match snippet m with
                 | Some s => ret s
                 | None => raise (KeyError "snippet")
                 end ;;
      _ <- print ("- " ++ snippet) ;;
      print_snippets env rest
  end.

(** The branch [if not creds or not creds.valid] of [main]: refresh an
    expired credential that has a refresh token, log in otherwise, and
    save the result. *)
Definition renew (env : Env) (creds : option Credentials) : ST Credentials :=
  c <- match creds with
       | Some c0 =>
           if expired c0 && has_refresh_token c0
           then step_of Refresh (refresh env c0)
           else consent_flow env
       | None => consent_flow env
       end ;;
  _ <- write_token env c ;;
  ret c.

Definition main (env : Env) : ST unit :=
  creds <- read_token env ;;
  _ <- match creds with
       | Some c => if valid c then ret c else renew env creds
       | None => renew env creds
       end ;;
  _ <- lift (build env) ;;
  results <- step_of (ListMessages [] 5) (list_messages env [] 5) ;;
  let messages := get_default (messages results) [] in
  match messages with
  | [] => print "No messages found."
  | _ :: _ => _ <- print "Latest Emails:" ;; print_snippets env messages
  end.

End GmailTest.

(** *** Vocabulary of the further properties *)

(** The number of characters of a UTF-8 string: its bytes other than
    continuation bytes. *)
Fixpoint char_count (s : string) : nat :=
  match s with
  | EmptyString => 0%nat
  | String c r => ((if Codec.cont (Codec.code c) then 0 else 1) + char_count r)%nat
  end.

(** The flags of the rules, in the order of the rules. *)
Definition all_flags : list string :=
  [flag_typosquatting; flag_tld; flag_subdomains; flag_whitelisted].

(** [l] picks some of the elements of [m], in the order of [m]. *)
Fixpoint picked_from (l m : list string) : bool :=
  match l, m with
  | [], _ => true
  | _ :: _, [] => false
  | x :: l', y :: m' =>
      if String.eqb x y then picked_from l' m' else picked_from l m'
  end.



(** [fetch_latest_email_text] gets the text [text] out of the listed
    message [m]: the message is fetched, its body decodes, the text is the
    body or, when that is empty, the snippet, and the message is marked
    as read. *)
Definition fetched (env : Account.Env) (m : MessageRef) (text : string) : Prop :=
  exists full b,
    Account.get_message env (id m) = inr full
    /\ GmailFetch.get_body (get_default (payload full) empty_part) = inr b
    /\ text = (if String.eqb b "" then get_default (snippet full) "" else b)
    /\ Account.modify_message env (id m) = inr tt.

(** The calls [fetch_latest_email_text] makes for messages it gets through. *)
Definition read_steps (ms : list MessageRef) : list Account.step :=
  flat_map (fun m => [Account.GetMessage (id m); Account.MarkRead (id m)]) ms.

(** The message [m] is fetched and has the snippet [s]. *)
Definition listed (env : Account.Env) (m : MessageRef) (s : string) : Prop :=
  exists msg, Account.get_message env (id m) = inr msg /\ snippet msg = Some s.

(** What [main] does for the messages it prints. *)
Definition snippet_steps (ms : list MessageRef) (snippets : list string) : list Account.step :=
  flat_map (fun ms => [Account.GetMessage (id (fst ms)); Account.Print ("- " ++ snd ms)])
           (combine ms snippets).

Definition fresh_credentials : Credentials :=
  mkCredentials "ya29.fresh" true false (Some "1//refresh").

Definition stale_credentials : Credentials :=
  mkCredentials "ya29.stale" false true (Some "1//refresh").

(** For the examples, a token file holds the access token only; the token
    [ya29.fresh] is still valid, any other has expired, and an empty file
    does not load. *)
Definition sample_load (text : string) : result Credentials :=
  if String.eqb text "" then inl (ValueError "Expecting value: line 1 column 1 (char 0)")
  else if String.eqb text "ya29.fresh" then inr fresh_credentials
  else inr (mkCredentials text false true (Some "1//refresh")).

(** An environment for the examples: every call succeeds, the mailbox
    holds the messages [inbox] under the ids of their snippets. *)
Definition sample_env (fresh : Credentials) (inbox : list string) : Account.Env :=
  Account.mkEnv sample_load (inr tt) (inr fresh)
    (fun c => inr (mkCredentials "ya29.refreshed" true false (refresh_token c)))
    (inr tt) (fun c => inr (access_token c)) (inr tt) (inr tt)
    (fun _ n => inr (mkList (Some (map mkRef (firstn n inbox)))))
    (fun i => inr (mkMessage (Some i) (Some (plain_part "aGk="))))
    (fun _ => inr tt).

(** As [sample_env] with the mailbox [a], [b], [c], but the message [b] is
    gone when it is fetched. *)
Definition flaky_env : Account.Env :=
  Account.mkEnv sample_load (inr tt) (inr fresh_credentials)
    (fun c => inr (mkCredentials "ya29.refreshed" true false (refresh_token c)))
    (inr tt) (fun c => inr (access_token c)) (inr tt) (inr tt)
    (fun _ _ => inr (mkList (Some [mkRef "a"; mkRef "b"; mkRef "c"])))
    (fun i => if String.eqb i "b"
              then inl (RemoteError "Requested entity was not found.")
              else inr (mkMessage (Some i) (Some (plain_part "aGk="))))
    (fun _ => inr tt).

(** As [sample_env], but the disk is full: [token.json] can be opened, and
    writing to it fails. *)
Definition full_disk_env : Account.Env :=
  Account.mkEnv sample_load (inr tt) (inr fresh_credentials)
    (fun c => inr c) (inr tt) (fun c => inr (access_token c))
    (inl (RemoteError "[Errno 28] No space left on device")) (inr tt)
    (fun _ _ => inr (mkList None))
    (fun _ => inl (RemoteError "Requested entity was not found."))
    (fun _ => inr tt).

(** The first of the payload's own parts that is not of another type is a
    plain part whose body has no [data]. *)
Definition plain_part_without_data (payload : MessagePart) : Prop :=
  exists pre p post b,
    parts payload = Some (pre ++ p :: post)
    /\ Forall not_plain pre
    /\ mimeType p = Some "text/plain"
    /\ body p = Some b
    /\ data b = None.

(** * Properties *)

(** ** The embedding on concrete inputs *)

Example analyze_plain :
  analyze_sender [mkHeader "Subject" "hi"; mkHeader "FROM" "Bob <bob@Example.ORG>"]
  = {| sender := "bob@Example.ORG"; domain := "example.org"; flags := ["None"] |}.
Proof. reflexivity. Qed.

Example analyze_paypa1 :
  flags (analyze_sender [mkHeader "From" "x@mail.paypa1.com"]) = [flag_typosquatting].
Proof. reflexivity. Qed.

Example analyze_xyz :
  flags (analyze_sender [mkHeader "From" "x@foo.bar.baz.qux.xyz"]) = [flag_tld; flag_subdomains].
Proof. reflexivity. Qed.

Example analyze_github :
  flags (analyze_sender [mkHeader "From" "<x@github.com>"]) = [flag_whitelisted].
Proof. reflexivity. Qed.

Example b64_hi : Codec.urlsafe_b64decode "aGk=" = inr (list_byte_of_string "hi").
Proof. reflexivity. Qed.

Example b64_urlsafe : Codec.urlsafe_b64decode "-_8=" = inr [Byte.xfb; Byte.xff].
Proof. reflexivity. Qed.

Example b64_unpadded : Codec.urlsafe_b64decode "aGk" = inl (BinasciiError "Incorrect padding").
Proof. reflexivity. Qed.

Example b64_one_char :
  Codec.urlsafe_b64decode "aGk=a"
  = inr (list_byte_of_string "hi").
Proof. reflexivity. Qed.

Example b64_dangling :
  Codec.urlsafe_b64decode "aGlhb"
  = inl (BinasciiError
           "Invalid base64-encoded string: number of data characters (5) cannot be 1 more than a multiple of 4").
Proof. reflexivity. Qed.

Example utf8_drops_bad_byte :
  Codec.decode_utf8_ignore [Byte.x68; Byte.xff; Byte.x69] = "hi".
Proof. reflexivity. Qed.

Example utf8_keeps_sequence :
  Codec.decode_utf8_ignore [Byte.xe2; Byte.x9c; Byte.x85; Byte.xc3] = "✅".
Proof. reflexivity. Qed.

Example extract_flat :
  extract_body (container "multipart/alternative"
                  [mkPart (Some "text/html") None (Some (mkBody (Some "PGI-"))) None;
                   plain_part "aGk="])
  = inr "hi".
Proof. reflexivity. Qed.

Example extract_single :
  extract_body (plain_part "aGk=") = inr "hi".
Proof. reflexivity. Qed.

Example extract_nested :
  extract_body (container "multipart/mixed"
                  [container "multipart/alternative" [plain_part "aGk="]])
  = inr "".
Proof. reflexivity. Qed.

Example spec_nested :
  spec_extract_body (container "multipart/mixed"
                       [container "multipart/alternative" [plain_part "aGk="]])
  = inr "hi".
Proof. reflexivity. Qed.

Example round_down : py_round (123456 # 10000) 2 == 1235 # 100.
Proof. reflexivity. Qed.

Example round_tie_even : py_round (12345 # 1000) 2 == 1234 # 100.
Proof. reflexivity. Qed.

Example predict_body_sample :
  run (predict_body (sample_bert (1 # 8) (7 # 8)) (JStr "hello"))
  = (inr (mkResult "Phishing" (py_round ((7 # 8) * 100) 2)), [EvClassify (JStr "hello")]).
Proof. reflexivity. Qed.

Example predict_body_tie :
  run (predict_body (sample_bert (1 # 2) (1 # 2)) (JStr "hello"))
  = (inr (mkResult "Legitimate" (py_round ((1 # 2) * 100) 2)), [EvClassify (JStr "hello")]).
Proof. reflexivity. Qed.

Example predict_missing :
  run (predict (sample_bert (1 # 8) (7 # 8)) (JObj [("body", JStr "x")]))
  = (inr (mkResponse 400 (error_body "No text provided")), []).
Proof. reflexivity. Qed.

Example predict_number :
  run (predict (sample_bert (1 # 8) (7 # 8)) (JInt 5))
  = (inl (TypeError "argument of type 'int' is not iterable"), []).
Proof. reflexivity. Qed.

Example fetch_one_unread :
  run (fetch_gmail (sample_bert (9 # 10) (1 # 10)) (fun s => s)
         (one_unread (mkPart (Some "multipart/alternative")
                        (Some [mkHeader "From" "Ann <ann@github.com>"])
                        (Some (mkBody None)) (Some [plain_part "aGk="]))))
  = (inr (mkResponse 200
            (JObj [("email_snippet", JStr "Hello &amp; welcome...");
                   ("body_prediction",
                    json_of_result (mkResult "Legitimate" (py_round ((9 # 10) * 100) 2)));
                   ("sender_info",
                    json_of_sender (mkSenderAnalysis "ann@github.com" "github.com"
                                      [flag_whitelisted]))])),
     [EvAuth; EvList; EvGet "18c2f"; EvClassify (JStr "hi")]).
Proof. reflexivity. Qed.

Example fetch_unpadded :
  run (fetch_gmail (sample_bert (9 # 10) (1 # 10)) (fun s => s) (one_unread unpadded_message))
  = (inr (mkResponse 500 (error_body "Incorrect padding")), [EvAuth; EvList; EvGet "18c2f"]).
Proof. reflexivity. Qed.

(** ** Strings *)

Section StringFacts.

Local Open Scope string_scope.

Lemma occurs_empty (c : ascii) : ~ PyStr.occurs c "".
Proof.
  intros [a [b H]]. destruct a; discriminate H.
Qed.

Lemma occurs_cons (c d : ascii) (s : string) :
  PyStr.occurs c (String d s) <-> c = d \/ PyStr.occurs c s.
Proof.
  split.
  - intros [a [b H]]. destruct a as [|x a]; simpl in H.
    + left. congruence.
    + right. exists a, b. congruence.
  - intros [E | [a [b H]]].
    + subst. exists "", s. reflexivity.
    + exists (String d a), b. simpl. congruence.
Qed.

Lemma occurs_append (c : ascii) (s t : string) :
  PyStr.occurs c (s ++ t) <-> PyStr.occurs c s \/ PyStr.occurs c t.
Proof.
  induction s as [|d s IH]; simpl.
  - split; [auto | intros [H | H]; [destruct (occurs_empty _ H) | exact H]].
  - rewrite !occurs_cons, IH. tauto.
Qed.

Lemma contains_char (c : ascii) (s : string) :
  PyStr.contains (String c "") s = true <-> PyStr.occurs c s.
Proof.
  induction s as [|d s IH].
  - simpl. split; [discriminate | intro H; destruct (occurs_empty _ H)].
  - rewrite occurs_cons, <- IH. cbn [PyStr.contains String.prefix].
    destruct (Ascii.ascii_dec c d) as [E | N].
    + split; [auto | intros _]. destruct s; reflexivity.
    + split.
      * intro H. right. destruct (PyStr.contains (String c "") s); [reflexivity|].
        rewrite orb_false_r in H. discriminate H.
      * intros [E | H]; [contradiction | rewrite H; apply orb_true_r].
Qed.

Lemma split_not_nil (sep : ascii) (s : string) : PyStr.split sep s <> [].
Proof.
  destruct s as [|c s]; simpl; [discriminate|].
  destruct (Ascii.eqb c sep); [discriminate|].
  destruct (PyStr.split sep s); discriminate.
Qed.

(** Without the separator, [split] returns the string itself. *)
Lemma split_without (sep : ascii) (s : string) :
  ~ PyStr.occurs sep s -> PyStr.split sep s = [s].
Proof.
  induction s as [|c s IH]; intro H; [reflexivity|].
  rewrite occurs_cons in H. simpl.
  destruct (Ascii.eqb_spec c sep) as [E | N]; [subst; tauto|].
  rewrite IH by tauto. reflexivity.
Qed.

(** Splitting at a separator: the segments before it, then those of
    the rest. *)
Lemma split_at (sep : ascii) (a d : string) :
  exists l, PyStr.split sep (a ++ String sep d) = (l ++ PyStr.split sep d)%list /\ l <> [].
Proof.
  induction a as [|c a [l [E NE]]]; simpl.
  - rewrite Ascii.eqb_refl. exists [""]. split; [reflexivity | discriminate].
  - rewrite E. destruct (Ascii.eqb c sep).
    + exists ("" :: l). split; [reflexivity | discriminate].
    + destruct l as [|h t]; [congruence|].
      exists (String c h :: t). split; [reflexivity | discriminate].
Qed.

(** [s.split(sep)[-1]] is what follows the last separator. *)
Lemma split_last (sep : ascii) (a d : string) :
  ~ PyStr.occurs sep d ->
  PyStr.last_item (PyStr.split sep (a ++ String sep d)) = d.
Proof.
  intro H. destruct (split_at sep a d) as [l [E _]].
  rewrite E, split_without by exact H.
  unfold PyStr.last_item. apply last_last.
Qed.

End StringFacts.

(** ** The pattern [<(.+?)>] *)

Section AngleBrackets.

Local Open Scope string_scope.

Lemma lazy_tail_some (s t : string) :
  Re.lazy_tail s = Some t ->
  exists post, s = t ++ String ">" post /\ ~ PyStr.occurs Re.newline t.
Proof.
  revert t. induction s as [|c s IH]; intros t H; simpl in H; [discriminate|].
  destruct (Ascii.eqb_spec c ">") as [E | N].
  - injection H as <-. subst c. exists s. split; [reflexivity | apply occurs_empty].
  - destruct (Ascii.eqb_spec c Re.newline) as [E' | N']; [discriminate|].
    destruct (Re.lazy_tail s) as [u|] eqn:L; [|discriminate].
    injection H as <-. destruct (IH u eq_refl) as [post [-> NL]].
    exists post. split; [reflexivity|].
    rewrite occurs_cons. intros [E' | O]; [congruence | tauto].
Qed.

Lemma lazy_tail_exists (t post : string) :
  ~ PyStr.occurs Re.newline t -> Re.lazy_tail (t ++ String ">" post) <> None.
Proof.
  induction t as [|c t IH]; intro NL; simpl; [discriminate|].
  rewrite occurs_cons in NL.
  destruct (Ascii.eqb c ">"); [discriminate|].
  destruct (Ascii.eqb_spec c Re.newline) as [E | N]; [subst; tauto|].
  destruct (Re.lazy_tail (t ++ String ">" post)) eqn:L; [simpl; discriminate|].
  exfalso. apply IH; [tauto | reflexivity].
Qed.

Lemma lazy_tail_found (t post : string) :
  ~ PyStr.occurs Re.newline t -> ~ PyStr.occurs ">" t ->
  Re.lazy_tail (t ++ String ">" post) = Some t.
Proof.
  induction t as [|c t IH]; intros NL NG; simpl; [reflexivity|].
  rewrite occurs_cons in NL, NG.
  destruct (Ascii.eqb_spec c ">") as [E | N]; [subst; tauto|].
  destruct (Ascii.eqb_spec c Re.newline) as [E | N']; [subst; tauto|].
  rewrite IH by tauto. reflexivity.
Qed.

Lemma match_group_some (s g : string) :
  Re.match_group s = Some g ->
  exists post, s = g ++ String ">" post /\ g <> "" /\ ~ PyStr.occurs Re.newline g.
Proof.
  destruct s as [|c s]; simpl; [discriminate|].
  destruct (Ascii.eqb_spec c Re.newline) as [E | N]; [discriminate|].
  destruct (Re.lazy_tail s) as [t|] eqn:L; [|discriminate].
  intro H. injection H as <-.
  destruct (lazy_tail_some _ _ L) as [post [-> NL]].
  exists post. repeat split; [discriminate|].
  rewrite occurs_cons. intros [E | O]; [congruence | tauto].
Qed.

Lemma match_group_exists (addr post : string) :
  addr <> "" -> ~ PyStr.occurs Re.newline addr ->
  Re.match_group (addr ++ String ">" post) <> None.
Proof.
  destruct addr as [|c t]; [congruence|]. intros _ NL. simpl.
  rewrite occurs_cons in NL.
  destruct (Ascii.eqb_spec c Re.newline) as [E | N]; [subst; tauto|].
  destruct (Re.lazy_tail (t ++ String ">" post)) eqn:L; [simpl; discriminate|].
  exfalso. apply (lazy_tail_exists t post); [tauto | exact L].
Qed.

Lemma match_group_found (addr post : string) :
  addr <> "" -> ~ PyStr.occurs Re.newline addr -> ~ PyStr.occurs ">" addr ->
  Re.match_group (addr ++ String ">" post) = Some addr.
Proof.
  destruct addr as [|c t]; [congruence|]. intros _ NL NG. simpl.
  rewrite occurs_cons in NL, NG.
  destruct (Ascii.eqb_spec c Re.newline) as [E | N]; [subst; tauto|].
  rewrite lazy_tail_found by tauto. reflexivity.
Qed.

(** A match of [re.search] is a bracketed part of the string. *)
Lemma search_angle_some (v g : string) :
  Re.search_angle v = Some g -> bracketed v g.
Proof.
  induction v as [|c v IH]; simpl; [discriminate|]. intro H.
  assert (R : Re.search_angle v = Some g -> bracketed (String c v) g).
  { intro S. destruct (IH S) as [pre [post [-> P]]].
    exists (String c pre), post. split; [reflexivity | exact P]. }
  destruct (Ascii.eqb_spec c "<") as [E | N]; [|auto].
  destruct (Re.match_group v) as [g'|] eqn:G; [|auto].
  injection H as <-. subst c.
  destruct (match_group_some _ _ G) as [post [-> P]].
  exists "", post. split; [reflexivity | exact P].
Qed.

(** [re.search] finds a match whenever some part is bracketed. *)
Lemma search_angle_none (v : string) :
  Re.search_angle v = None -> forall addr, ~ bracketed v addr.
Proof.
  intros H addr [pre [post [E [NE NL]]]]. subst v. revert H.
  induction pre as [|c pre IH]; simpl.
  - destruct (Re.match_group (addr ++ String ">" post)) eqn:G; [discriminate|].
    exfalso. exact (match_group_exists addr post NE NL G).
  - destruct (Ascii.eqb c "<"); [|exact IH].
    destruct (Re.match_group _); [discriminate | exact IH].
Qed.

(** The usual shape [Name <address>]: the address is found. *)
Lemma search_angle_found (pre addr post : string) :
  ~ PyStr.occurs "<" pre -> addr <> "" ->
  ~ PyStr.occurs Re.newline addr -> ~ PyStr.occurs ">" addr ->
  Re.search_angle (pre ++ String "<" (addr ++ String ">" post)) = Some addr.
Proof.
  intros NP NE NL NG. induction pre as [|c pre IH]; simpl.
  - rewrite match_group_found by assumption. reflexivity.
  - rewrite occurs_cons in NP.
    destruct (Ascii.eqb_spec c "<") as [E | N]; [subst; tauto|].
    apply IH. tauto.
Qed.

End AngleBrackets.

(** ** The [From] header *)

Section FromHeader.

Local Open Scope string_scope.

Ltac by_cases_on_char c :=
  destruct c as [[] [] [] [] [] [] [] []]; vm_compute;
  let H := fresh "H" in intro H; try discriminate H; auto.

Lemma lower_f c : PyStr.lower_ascii c = "f"%char -> c = "f"%char \/ c = "F"%char.
Proof. by_cases_on_char c. Qed.

Lemma lower_r c : PyStr.lower_ascii c = "r"%char -> c = "r"%char \/ c = "R"%char.
Proof. by_cases_on_char c. Qed.

Lemma lower_o c : PyStr.lower_ascii c = "o"%char -> c = "o"%char \/ c = "O"%char.
Proof. by_cases_on_char c. Qed.

Lemma lower_m c : PyStr.lower_ascii c = "m"%char -> c = "m"%char \/ c = "M"%char.
Proof. by_cases_on_char c. Qed.

(** [name.lower() == "from"] holds for the sixteen spellings and for no
    other name. *)
Lemma lower_from_iff (n : string) :
  PyStr.lower n = "from" <-> In n from_spellings.
Proof.
  split.
  - destruct n as [|c1 [|c2 [|c3 [|c4 [|c5 n]]]]]; simpl; try discriminate.
    intro H. injection H as H1 H2 H3 H4.
    destruct (lower_f _ H1), (lower_r _ H2), (lower_o _ H3), (lower_m _ H4);
      subst; vm_compute; tauto.
  - intro H. vm_compute in H.
    repeat (destruct H as [<- | H]; [reflexivity|]). destruct H.
Qed.

Lemma from_header_absent (hs : list Header) :
  (forall h, In h hs -> ~ In (name h) from_spellings) -> from_header hs = "".
Proof.
  induction hs as [|h t IH]; intro H; simpl; [reflexivity|].
  destruct (String.eqb_spec (PyStr.lower (name h)) "from") as [E | N].
  - apply lower_from_iff in E. exfalso. apply (H h); [left; reflexivity | exact E].
  - apply IH. intros h' I. apply H. right. exact I.
Qed.

Lemma from_header_first (pre post : list Header) (h : Header) :
  (forall h', In h' pre -> ~ In (name h') from_spellings) ->
  In (name h) from_spellings ->
  from_header (pre ++ h :: post) = value h.
Proof.
  intros NP I. induction pre as [|p pre IH]; simpl.
  - apply lower_from_iff in I. rewrite I. reflexivity.
  - destruct (String.eqb_spec (PyStr.lower (name p)) "from") as [E | N].
    + apply lower_from_iff in E. exfalso. apply (NP p); [left; reflexivity | exact E].
    + apply IH. intros h' I'. apply NP. right. exact I'.
Qed.

Lemma from_header_spec (hs : list Header) : from_value_of hs (from_header hs).
Proof.
  induction hs as [|h t IH]; simpl.
  - right. split; [intros h [] | reflexivity].
  - destruct (String.eqb_spec (PyStr.lower (name h)) "from") as [E | N].
    + left. exists [], h, t. repeat split; [intros h' [] | apply lower_from_iff, E].
    + assert (NF : ~ In (name h) from_spellings) by (rewrite <- lower_from_iff; exact N).
      destruct IH as [[pre [h0 [post [-> [NP [I V]]]]]] | [NA V]].
      * left. exists (h :: pre), h0, post. repeat split; try assumption.
        intros h' [<- | I']; [exact NF | apply NP, I'].
      * right. split; [|exact V]. intros h' [<- | I']; [exact NF | apply NA, I'].
Qed.

End FromHeader.

(** ** Sender analysis *)

Section SenderAnalysisFacts.

Local Open Scope string_scope.

(** The last occurrence of a character splits the string around it. *)
Lemma last_occurrence (c : ascii) (s : string) :
  PyStr.occurs c s ->
  exists a d, s = a ++ String c d /\ ~ PyStr.occurs c d.
Proof.
  induction s as [|x s IH]; intro O; [destruct (occurs_empty _ O)|].
  destruct (PyStr.contains (String c "") s) eqn:C.
  - apply contains_char in C. destruct (IH C) as [a [d [-> ND]]].
    exists (String x a), d. split; [reflexivity | exact ND].
  - assert (NS : ~ PyStr.occurs c s).
    { intro O'. apply contains_char in O'. congruence. }
    apply occurs_cons in O. destruct O as [-> | O]; [|contradiction].
    exists "", s. split; [reflexivity | exact NS].
Qed.

(** The domain is what follows the last ["@"], in lower case. *)
Lemma email_domain_spec (email : string) :
  (exists a d, email = a ++ String "@" d
               /\ ~ PyStr.occurs "@" d
               /\ email_domain email = PyStr.lower d)
  \/ (~ PyStr.occurs "@" email /\ email_domain email = "unknown").
Proof.
  unfold email_domain. destruct (PyStr.contains "@" email) eqn:C.
  - left. apply contains_char, last_occurrence in C.
    destruct C as [a [d [-> ND]]]. exists a, d.
    rewrite split_last by exact ND. auto.
  - right. split; [|reflexivity].
    intro O. apply contains_char in O. congruence.
Qed.

Lemma sender_email_spec (v : string) :
  bracketed v (sender_email v)
  \/ ((forall a, ~ bracketed v a) /\ sender_email v = v).
Proof.
  unfold sender_email. destruct (Re.search_angle v) as [g|] eqn:S.
  - left. apply search_angle_some, S.
  - right. split; [apply search_angle_none, S | reflexivity].
Qed.

Lemma sender_email_found (pre addr post : string) :
  ~ PyStr.occurs "<" pre -> addr <> "" ->
  ~ PyStr.occurs Re.newline addr -> ~ PyStr.occurs ">" addr ->
  sender_email (pre ++ "<" ++ addr ++ ">" ++ post) = addr.
Proof.
  intros. unfold sender_email. simpl.
  rewrite search_angle_found by assumption. reflexivity.
Qed.

(** The rule block appends, in order, the flag of each rule that fires:
    no rule looks at what another one did. *)
Lemma rule_flags_fired (d : string) :
  rule_flags d
  = fired [(rule_typosquatting d, flag_typosquatting);
           (rule_tld d, flag_tld);
           (rule_subdomains d, flag_subdomains);
           (rule_whitelist d, flag_whitelisted)].
Proof.
  unfold rule_flags, append_if.
  destruct (rule_typosquatting d), (rule_tld d), (rule_subdomains d), (rule_whitelist d);
    reflexivity.
Qed.

Lemma analyze_sender_flags (hs : list Header) :
  flags (analyze_sender hs)
  = match rule_flags (domain (analyze_sender hs)) with
    | [] => ["None"]
    | f :: t => f :: t
    end.
Proof.
  cbn [analyze_sender flags domain].
  destruct (rule_flags (email_domain (sender_email (from_header hs)))); reflexivity.
Qed.

Lemma whitelist_members (d : string) :
  rule_whitelist d = true -> In d whitelist.
Proof.
  unfold rule_whitelist, PyStr.mem. rewrite existsb_exists.
  intros [x [I E]]. apply String.eqb_eq in E. subst. exact I.
Qed.

(** A whitelisted domain triggers no other rule, so the marker of the
    whitelist never comes with another flag. *)
Lemma whitelisted_alone (hs : list Header) :
  In flag_whitelisted (flags (analyze_sender hs)) ->
  flags (analyze_sender hs) = [flag_whitelisted].
Proof.
  rewrite analyze_sender_flags.
  generalize (domain (analyze_sender hs)) as d. intro d.
  destruct (rule_whitelist d) eqn:W.
  - intros _. apply whitelist_members in W. simpl in W.
    repeat (destruct W as [<- | W]; [reflexivity|]). destruct W.
  - rewrite rule_flags_fired, W.
    destruct (rule_typosquatting d), (rule_tld d), (rule_subdomains d);
      cbv; intro H; repeat (destruct H as [H | H]; [discriminate H|]); destruct H.
Qed.

End SenderAnalysisFacts.

Section AnyLowerFacts.

Local Open Scope string_scope.

Variable lower : string -> string.

Lemma from_header_with_spec (hs : list Header) :
  from_value_with lower hs (from_header_with lower hs).
Proof.
  induction hs as [|h t IH]; simpl.
  - right. split; [intros h [] | reflexivity].
  - destruct (String.eqb_spec (lower (name h)) "from") as [E | N].
    + left. exists [], h, t. repeat split; [intros h' [] | exact E].
    + destruct IH as [[pre [h0 [post [-> [NP [I V]]]]]] | [NA V]].
      * left. exists (h :: pre), h0, post. repeat split; try assumption.
        intros h' [<- | I']; [exact N | apply NP, I'].
      * right. split; [|exact V]. intros h' [<- | I']; [exact N | apply NA, I'].
Qed.

Lemma from_value_spellings (hs : list Header) (v : string) :
  (forall n, lower n = "from" <-> In n from_spellings) ->
  from_value_with lower hs v -> from_value_of hs v.
Proof.
  intros S [[pre [h [post [-> [NP [I V]]]]]] | [NA V]].
  - left. exists pre, h, post. repeat split; [ | apply S, I | exact V].
    intros h' I' F. apply (NP h' I'), S, F.
  - right. split; [|exact V]. intros h I F. apply (NA h I), S, F.
Qed.

Lemma email_domain_with_spec (email : string) :
  (exists a d, email = a ++ String "@" d
               /\ ~ PyStr.occurs "@" d
               /\ email_domain_with lower email = lower d)
  \/ (~ PyStr.occurs "@" email /\ email_domain_with lower email = "unknown").
Proof.
  unfold email_domain_with. destruct (PyStr.contains "@" email) eqn:C.
  - left. apply contains_char, last_occurrence in C.
    destruct C as [a [d [-> ND]]]. exists a, d.
    rewrite split_last by exact ND. auto.
  - right. split; [|reflexivity].
    intro O. apply contains_char in O. congruence.
Qed.

End AnyLowerFacts.

Local Open Scope string_scope.

(** C4.  [analyze_sender] is a function of its headers alone: equal headers
    give equal results.  Its flags are never empty, and they are exactly
    [["None"]] when, and only when, none of the four rules fires. *)
Theorem analyze_sender_pure_and_never_empty (hs : list Header) :
  (forall hs', hs' = hs -> analyze_sender hs' = analyze_sender hs)
  /\ flags (analyze_sender hs) <> []
  /\ (rule_typosquatting (domain (analyze_sender hs)) = false
      /\ rule_tld (domain (analyze_sender hs)) = false
      /\ rule_subdomains (domain (analyze_sender hs)) = false
      /\ rule_whitelist (domain (analyze_sender hs)) = false
      <-> flags (analyze_sender hs) = ["None"]).
Proof.
  split; [intros hs' ->; reflexivity|].
  rewrite analyze_sender_flags, rule_flags_fired.
  generalize (domain (analyze_sender hs)) as d. intro d.
  destruct (rule_typosquatting d), (rule_tld d), (rule_subdomains d), (rule_whitelist d);
    cbv; (split; [discriminate|]);
    (split; [intros [A [B [C D]]]; first [discriminate | reflexivity]
            | intro H; first [discriminate H | tauto]]).
Qed.

(** C5.  For every header list, and whatever [str.lower] does to text
    ([lower] below): the value analysed is that of the first header whose
    name in lower case is ["from"], the empty string without one; the
    sender is a bracketed part of the value when there is one (the address
    of [Name <address>]), the value itself otherwise; the domain is what
    follows the last ["@"] of the sender, in lower case, and ["unknown"]
    when the sender has no ["@"].  The names that are ["from"] in lower
    case being its sixteen spellings, the header is the first with one of
    these names.  [analyze_sender] is the instance for ASCII text. *)
Theorem analyze_sender_from_address_domain (lower : string -> string) (hs : list Header) :
  exists v,
    from_value_with lower hs v
    /\ (bracketed v (sender (analyze_sender_with lower hs))
        \/ ((forall a, ~ bracketed v a) /\ sender (analyze_sender_with lower hs) = v))
    /\ (forall pre addr post,
           v = pre ++ "<" ++ addr ++ ">" ++ post ->
           ~ PyStr.occurs "<" pre -> addr <> "" ->
           ~ PyStr.occurs Re.newline addr -> ~ PyStr.occurs ">" addr ->
           sender (analyze_sender_with lower hs) = addr)
    /\ ((exists a d,
            sender (analyze_sender_with lower hs) = a ++ "@" ++ d
            /\ ~ PyStr.occurs "@" d
            /\ domain (analyze_sender_with lower hs) = lower d)
        \/ (~ PyStr.occurs "@" (sender (analyze_sender_with lower hs))
            /\ domain (analyze_sender_with lower hs) = "unknown"))
    /\ ((forall n, lower n = "from" <-> In n from_spellings) -> from_value_of hs v)
    /\ analyze_sender_with PyStr.lower hs = analyze_sender hs.
Proof.
  exists (from_header_with lower hs). cbn [analyze_sender_with sender domain].
  split; [apply from_header_with_spec|].
  split; [apply sender_email_spec|].
  split; [|split; [|split]].
  - intros pre addr post -> NP NE NL NG. apply sender_email_found; assumption.
  - apply email_domain_with_spec.
  - intro S. apply (from_value_spellings lower); [exact S | apply from_header_with_spec].
  - reflexivity.
Qed.

Lemma analyze_sender_from_address_domain_witness :
  exists v,
    from_value_of [mkHeader "To" "me@example.org"; mkHeader "FROM" "Ann <Ann@GitHub.com>"] v
    /\ sender (analyze_sender_with PyStr.lower
                 [mkHeader "To" "me@example.org"; mkHeader "FROM" "Ann <Ann@GitHub.com>"])
       = "Ann@GitHub.com"
    /\ domain (analyze_sender_with PyStr.lower
                 [mkHeader "To" "me@example.org"; mkHeader "FROM" "Ann <Ann@GitHub.com>"])
       = "github.com".
Proof.
  destruct (analyze_sender_from_address_domain PyStr.lower
              [mkHeader "To" "me@example.org"; mkHeader "FROM" "Ann <Ann@GitHub.com>"])
    as [v [_ [_ [_ [_ [S _]]]]]].
  exists v. split; [apply S, lower_from_iff|]. split; reflexivity.
Defined.

(** C6.  Whatever [str.lower] does to text ([lower] below): a sender
    whose domain is [mail.paypa1.com] gets the flag
    ["Possible typosquatting"]; one whose domain is [foo.bar.baz.qux.xyz]
    gets both ["Suspicious TLD"] and ["Too many subdomains"]; one whose
    domain is [github.com] gets the marker ["✅ Whitelisted domain"] and
    none of the three suspicion flags.  In each case these are all the
    flags. *)
Theorem analyze_sender_specified_domains (lower : string -> string) (hs : list Header) :
  (domain (analyze_sender_with lower hs) = "mail.paypa1.com" ->
   In "Possible typosquatting" (flags (analyze_sender_with lower hs))
   /\ flags (analyze_sender_with lower hs) = ["Possible typosquatting"])
  /\ (domain (analyze_sender_with lower hs) = "foo.bar.baz.qux.xyz" ->
      In "Suspicious TLD" (flags (analyze_sender_with lower hs))
      /\ In "Too many subdomains" (flags (analyze_sender_with lower hs))
      /\ flags (analyze_sender_with lower hs) = ["Suspicious TLD"; "Too many subdomains"])
  /\ (domain (analyze_sender_with lower hs) = "github.com" ->
      In "✅ Whitelisted domain" (flags (analyze_sender_with lower hs))
      /\ (forall f,
             In f ["Possible typosquatting"; "Suspicious TLD"; "Too many subdomains"] ->
             ~ In f (flags (analyze_sender_with lower hs)))
      /\ flags (analyze_sender_with lower hs) = ["✅ Whitelisted domain"]).
Proof.
  cbn [analyze_sender_with flags domain].
  split; [|split]; intro E; rewrite E.
  - split; [cbv; auto | reflexivity].
  - split; [cbv; auto|]. split; [cbv; auto | reflexivity].
  - split; [cbv; auto|]. split; [|reflexivity].
    cbv. intros f I H.
    destruct H as [<- | []].
    repeat (destruct I as [I | I]; [discriminate I|]). destruct I.
Qed.

Lemma analyze_sender_specified_domains_witness :
  In "Possible typosquatting"
     (flags (analyze_sender [mkHeader "From" "PayPal <service@mail.paypa1.com>"]))
  /\ (In "Suspicious TLD" (flags (analyze_sender [mkHeader "from" "x@Foo.Bar.Baz.Qux.XYZ"]))
      /\ In "Too many subdomains"
            (flags (analyze_sender [mkHeader "from" "x@Foo.Bar.Baz.Qux.XYZ"])))
  /\ In "✅ Whitelisted domain"
        (flags (analyze_sender [mkHeader "Subject" "PR"; mkHeader "FROM" "<noreply@github.com>"])).
Proof.
  split; [|split].
  - apply (proj1 (analyze_sender_specified_domains PyStr.lower
                    [mkHeader "From" "PayPal <service@mail.paypa1.com>"])).
    reflexivity.
  - destruct (proj1 (proj2 (analyze_sender_specified_domains PyStr.lower
                              [mkHeader "from" "x@Foo.Bar.Baz.Qux.XYZ"])) eq_refl)
      as [T [S _]].
    exact (conj T S).
  - apply (proj2 (proj2 (analyze_sender_specified_domains PyStr.lower
                           [mkHeader "Subject" "PR"; mkHeader "FROM" "<noreply@github.com>"]))).
    reflexivity.
Defined.

(** C7, as stated, fails: no header list gets the marker of the whitelist
    together with a suspicion flag. *)
Lemma whitelist_and_suspicion_never_together :
  ~ exists hs : list Header,
      In flag_whitelisted (flags (analyze_sender hs))
      /\ exists f, In f suspicion_flags /\ In f (flags (analyze_sender hs)).
Proof.
  intros [hs [W [f [S I]]]].
  rewrite (whitelisted_alone hs W) in I.
  destruct I as [<- | []].
  cbv in S. repeat (destruct S as [S | S]; [discriminate S|]). destruct S.
Qed.

(** C7, amended.  The four rules are tested one after the other and each
    appends its flag whatever the others did; with the whitelist and the
    rules of the source, though, a whitelisted domain triggers no
    suspicion rule: when the marker of the whitelist is among the flags, it
    is the only flag. *)
Theorem whitelist_marker_stands_alone (hs : list Header) :
  rule_flags (domain (analyze_sender hs))
  = fired [(rule_typosquatting (domain (analyze_sender hs)), flag_typosquatting);
           (rule_tld (domain (analyze_sender hs)), flag_tld);
           (rule_subdomains (domain (analyze_sender hs)), flag_subdomains);
           (rule_whitelist (domain (analyze_sender hs)), flag_whitelisted)]
  /\ (In flag_whitelisted (flags (analyze_sender hs)) ->
      flags (analyze_sender hs) = [flag_whitelisted]).
Proof.
  split; [apply rule_flags_fired | apply whitelisted_alone].
Qed.

Lemma whitelist_marker_stands_alone_witness :
  flags (analyze_sender [mkHeader "From" "Octocat <octocat@github.com>"]) = [flag_whitelisted].
Proof.
  apply (proj2 (whitelist_marker_stands_alone
                  [mkHeader "From" "Octocat <octocat@github.com>"])).
  cbv. auto.
Defined.

(** ** Body extraction *)

Section ExtractBodyFacts.

Lemma not_plain_eqb (p : MessagePart) (m : string) :
  mimeType p = Some m -> m <> "text/plain" -> String.eqb m "text/plain" = false.
Proof.
  intros _ N. apply String.eqb_neq. exact N.
Qed.

(** The loop passes over parts of other types. *)
Lemma scan_parts_skip (pre rest : list MessagePart) :
  Forall not_plain pre -> scan_parts (pre ++ rest) = scan_parts rest.
Proof.
  induction 1 as [|q pre [m [E N]] _ IH]; simpl; [reflexivity|].
  rewrite E, (not_plain_eqb q m E N). exact IH.
Qed.

Lemma scan_parts_none (ps : list MessagePart) :
  Forall not_plain ps -> scan_parts ps = inr None.
Proof.
  intro F. rewrite <- (app_nil_r ps). rewrite scan_parts_skip by exact F. reflexivity.
Qed.

Lemma scan_parts_first (pre post : list MessagePart) (p : MessagePart) (b : MessagePartBody) :
  Forall not_plain pre ->
  mimeType p = Some "text/plain" -> body p = Some b ->
  scan_parts (pre ++ p :: post)
  = match decode_data (get_default (data b) "") with
    | inl e => inl e
    | inr s => inr (Some s)
    end.
Proof.
  intros F T B. rewrite scan_parts_skip by exact F. simpl. rewrite T, B. reflexivity.
Qed.

(** The loop reads the type and the body of each part, never its parts. *)
Lemma scan_parts_prune (ps : list MessagePart) :
  scan_parts (map prune ps) = scan_parts ps.
Proof.
  induction ps as [|p ps IH]; simpl; [reflexivity|]. rewrite IH. reflexivity.
Qed.

Lemma decode_data_raises (d : string) (e : exn) :
  decode_data d = inl e -> Codec.urlsafe_b64decode d = inl e.
Proof.
  unfold decode_data. destruct (Codec.urlsafe_b64decode d); [|discriminate].
  intro H. injection H as <-. reflexivity.
Qed.

Lemma decode_data_raises_iff (d : string) (e : exn) :
  decode_data d = inl e <-> Codec.urlsafe_b64decode d = inl e.
Proof.
  split; [apply decode_data_raises|].
  intro H. unfold decode_data. rewrite H. reflexivity.
Qed.

(** The loop runs to its end only over parts of other types. *)
Lemma scan_parts_end (ps : list MessagePart) :
  scan_parts ps = inr None -> Forall not_plain ps.
Proof.
  induction ps as [|p ps IH]; simpl; [constructor|].
  destruct (mimeType p) as [m|] eqn:T; [|discriminate].
  destruct (String.eqb_spec m "text/plain") as [E | N].
  - destruct (body p) as [b|]; [|discriminate].
    destruct (decode_data (get_default (data b) "")); discriminate.
  - intro H. constructor; [exists m; auto | apply IH, H].
Qed.

(** Where the loop raises. *)
Lemma scan_parts_raises (ps : list MessagePart) (e : exn) :
  scan_parts ps = inl e ->
  exists pre p post,
    ps = (pre ++ p :: post)%list /\ Forall not_plain pre
    /\ ((mimeType p = None /\ e = KeyError "mimeType")
        \/ (mimeType p = Some "text/plain" /\ body p = None /\ e = KeyError "body")
        \/ (mimeType p = Some "text/plain"
            /\ exists b, body p = Some b
                         /\ Codec.urlsafe_b64decode (get_default (data b) "") = inl e)).
Proof.
  induction ps as [|p ps IH]; simpl; [discriminate|].
  destruct (mimeType p) as [m|] eqn:T.
  2:{ intro H. injection H as <-. exists [], p, ps. repeat split; auto. }
  destruct (String.eqb_spec m "text/plain") as [E | N].
  - subst m. destruct (body p) as [b|] eqn:B.
    2:{ intro H. injection H as <-. exists [], p, ps.
        split; [reflexivity|]. split; [constructor|]. right. left. auto. }
    destruct (decode_data (get_default (data b) "")) eqn:D; [|discriminate].
    intro H. injection H as <-. exists [], p, ps.
    split; [reflexivity|]. split; [constructor|]. right. right.
    split; [exact T|]. exists b. split; [exact B|].
    apply decode_data_raises, D.
  - intro H. destruct (IH H) as [pre [q [post [-> [F C]]]]].
    exists (p :: pre), q, post. split; [reflexivity|].
    split; [constructor; [exists m; auto | exact F] | exact C].
Qed.

Lemma extract_body_raises_iff (payload : MessagePart) (e : exn) :
  extract_body payload = inl e <-> extraction_raises payload e.
Proof.
  split.
  - unfold extract_body.
    destruct (parts payload) as [ps|] eqn:P.
    + destruct (scan_parts ps) as [e'|[s|]] eqn:L.
      * intro H. injection H as <-.
        destruct (scan_parts_raises ps e' L)
          as [pre [p [post [-> [F [[T ->] | [[T [B ->]] | [T [b [B D]]]]]]]]]].
        -- apply (raises_without_type payload pre p post); assumption.
        -- apply (raises_without_body payload pre p post); assumption.
        -- apply (raises_on_part_data payload pre p post b); assumption.
      * discriminate.
      * destruct (body payload) as [[[d|]]|] eqn:B; try discriminate.
        intro H. apply (raises_on_own_data payload d).
        -- right. exists ps. split; [exact P | apply scan_parts_end, L].
        -- exact B.
        -- apply decode_data_raises, H.
    + destruct (body payload) as [[[d|]]|] eqn:B; try discriminate.
      intro H. apply (raises_on_own_data payload d); [left; exact P | exact B |].
      apply decode_data_raises, H.
  - intros [pre p post P F T
           | pre p post P F T B
           | pre p post b e' P F T B D
           | d e' P B D]; unfold extract_body.
    + rewrite P, scan_parts_skip by exact F. simpl. rewrite T. reflexivity.
    + rewrite P, scan_parts_skip by exact F. simpl. rewrite T, B. reflexivity.
    + rewrite P, (scan_parts_first pre post p b F T B).
      apply decode_data_raises_iff in D. rewrite D. reflexivity.
    + assert (L : match parts payload with
                  | Some ps => scan_parts ps
                  | None => inr None
                  end = inr None).
      { destruct P as [-> | [ps [-> F]]]; [reflexivity | apply scan_parts_none, F]. }
      rewrite L, B. apply decode_data_raises_iff, D.
Qed.

(** *** Base64 data that stops inside a group of four *)

Lemma alphabet_value (c : ascii) :
  In c base64url_alphabet ->
  (exists v, Codec.table_a2b (Codec.urlsafe_translate c) = Some v)
  /\ Ascii.eqb (Codec.urlsafe_translate c) "=" = false
  /\ (Codec.code c <? 128)%N = true.
Proof.
  unfold base64url_alphabet. cbn [list_ascii_of_string In].
  intro H.
  repeat (destruct H as [<- | H];
          [split; [eexists; reflexivity | split; reflexivity]|]).
  destruct H.
Qed.

Lemma a2b_loop_dangling (s : string) :
  forall (q l p : N) (out : Codec.bytes),
    (q < 4)%N ->
    Forall (fun c => (exists v, Codec.table_a2b c = Some v) /\ Ascii.eqb c "=" = false)
           (list_ascii_of_string s) ->
    ((N.to_nat q + String.length s) mod 4 <> 0)%nat ->
    exists m, Codec.a2b_loop s q l p out = inl (BinasciiError m).
Proof.
  induction s as [|c s IH]; intros q l p out Q F M.
  - cbn [Codec.a2b_loop]. cbn [String.length] in M. rewrite Nat.add_0_r in M.
    assert (C : q = 1%N \/ q = 2%N \/ q = 3%N).
    { assert (q <> 0%N) by (intros ->; apply M; reflexivity). lia. }
    destruct C as [-> | [-> | ->]]; cbn; eexists; reflexivity.
  - cbn [list_ascii_of_string] in F. inversion F as [|c' r [[v V] E] F']. subst c' r.
    cbn [Codec.a2b_loop]. rewrite E, V. cbn [String.length] in M.
    assert (C : q = 0%N \/ q = 1%N \/ q = 2%N \/ q = 3%N) by lia.
    destruct C as [-> | [-> | [-> | ->]]]; cbn [N.eqb Pos.eqb];
      apply IH; try exact F'; try lia;
      change (N.to_nat 0) with 0%nat in *; change (N.to_nat 1) with 1%nat in *;
      change (N.to_nat 2) with 2%nat in *; change (N.to_nat 3) with 3%nat in *.
    + replace (0 + S (String.length s))%nat with (1 + String.length s)%nat in M by lia.
      exact M.
    + replace (1 + S (String.length s))%nat with (2 + String.length s)%nat in M by lia.
      exact M.
    + replace (2 + S (String.length s))%nat with (3 + String.length s)%nat in M by lia.
      exact M.
    + replace (3 + S (String.length s))%nat
        with (0 + String.length s + 1 * 4)%nat in M by lia.
      rewrite Nat.Div0.mod_add in M. exact M.
Qed.

Lemma map_string_chars (f : ascii -> ascii) (s : string) :
  list_ascii_of_string (Codec.map_string f s) = map f (list_ascii_of_string s).
Proof.
  induction s as [|c s IH]; simpl; [reflexivity|]. rewrite IH. reflexivity.
Qed.

Lemma map_string_length (f : ascii -> ascii) (s : string) :
  String.length (Codec.map_string f s) = String.length s.
Proof.
  induction s as [|c s IH]; simpl; [reflexivity|]. rewrite IH. reflexivity.
Qed.

(** Data in the alphabet whose length is no multiple of four, as base64
    without its padding is, makes the decoder raise [binascii.Error]. *)
Lemma urlsafe_b64decode_dangling (d : string) :
  Forall (fun c => In c base64url_alphabet) (list_ascii_of_string d) ->
  (String.length d mod 4 <> 0)%nat ->
  exists m, Codec.urlsafe_b64decode d = inl (BinasciiError m).
Proof.
  intros F M. unfold Codec.urlsafe_b64decode.
  assert (A : Codec.is_ascii d = true).
  { clear M. induction d as [|c d IH]; [reflexivity|].
    cbn [list_ascii_of_string] in F. inversion F as [|c' r I F']. subst c' r.
    cbn [Codec.is_ascii String.length] in *.
    destruct (alphabet_value c I) as [_ [_ C]]. rewrite C. apply IH. exact F'. }
  rewrite A. apply a2b_loop_dangling; [lia | | rewrite map_string_length; exact M].
  rewrite map_string_chars. apply Forall_map.
  eapply Forall_impl; [|exact F].
  intros c I. destruct (alphabet_value c I) as [V [E _]]. split; assumption.
Qed.

(** *** Decoding with [errors="ignore"] *)

Lemma keep_utf8_ascii (bs : Codec.bytes) :
  Forall (fun b => (Byte.to_N b < 128)%N) bs -> Codec.keep_utf8 bs = bs.
Proof.
  induction 1 as [|b bs H _ IH]; [reflexivity|].
  cbn [Codec.keep_utf8]. apply N.ltb_lt in H. rewrite H, IH. reflexivity.
Qed.

(** A byte that can start no sequence is dropped. *)
Lemma keep_utf8_drops (b : Byte.byte) (rest : Codec.bytes) :
  (128 <= Byte.to_N b <= 193 \/ 245 <= Byte.to_N b)%N ->
  Codec.keep_utf8 (b :: rest) = Codec.keep_utf8 rest.
Proof.
  intro H. cbn [Codec.keep_utf8].
  assert (A : (Byte.to_N b <? 128)%N = false) by (apply N.ltb_ge; lia).
  assert (S2 : forall x, Codec.seq2 (Byte.to_N b) x = false).
  { intro x. unfold Codec.seq2, Codec.between.
    destruct (N.leb_spec 194 (Byte.to_N b)), (N.leb_spec (Byte.to_N b) 223);
      try reflexivity; lia. }
  assert (S3 : forall x y, Codec.seq3 (Byte.to_N b) x y = false).
  { intros x y. unfold Codec.seq3, Codec.between.
    destruct (N.eqb_spec (Byte.to_N b) 224), (N.eqb_spec (Byte.to_N b) 237),
      (N.leb_spec 225 (Byte.to_N b)), (N.leb_spec (Byte.to_N b) 236),
      (N.leb_spec 238 (Byte.to_N b)), (N.leb_spec (Byte.to_N b) 239);
      try reflexivity; lia. }
  assert (S4 : forall x y z, Codec.seq4 (Byte.to_N b) x y z = false).
  { intros x y z. unfold Codec.seq4, Codec.between.
    destruct (N.eqb_spec (Byte.to_N b) 240), (N.eqb_spec (Byte.to_N b) 244),
      (N.leb_spec 241 (Byte.to_N b)), (N.leb_spec (Byte.to_N b) 243);
      try reflexivity; lia. }
  rewrite A. destruct rest as [|b1 [|b2 [|b3 r]]]; rewrite ?S2, ?S3, ?S4; reflexivity.
Qed.

End ExtractBodyFacts.

(** C2, as stated, fails.  The plain text of [nested_message] sits one
    level below the parts of the payload: a depth-first search finds it,
    [extract_body] returns the empty string.  [html_only_message] has no
    part of type [text/plain] at all, and [extract_body] returns its
    decoded HTML instead of the empty string. *)
Lemma extract_body_is_not_depth_first :
  (spec_extract_body nested_message = inr "hi"
   /\ extract_body nested_message = inr "")
  /\ (spec_first_plain html_only_message = None
      /\ extract_body html_only_message = inr "<b>").
Proof.
  repeat split; reflexivity.
Qed.

(** C2, amended.  [extract_body] looks at the parts of the payload itself,
    in order, and returns the decoded data of the first one of type
    [text/plain] (the empty string when that part's body has no data);
    parts nested deeper are never looked at; when none of the payload's own
    parts is of type [text/plain], or it has no parts, the result is the
    decoded data of the payload's own body when it has some, and the empty
    string otherwise. *)
Theorem extract_body_scans_top_level (payload : MessagePart) :
  (forall pre p post b,
      parts payload = Some (pre ++ p :: post)%list ->
      Forall not_plain pre ->
      mimeType p = Some "text/plain" -> body p = Some b ->
      extract_body payload = decode_data (get_default (data b) ""))
  /\ (parts payload = None
      \/ (exists ps, parts payload = Some ps /\ Forall not_plain ps) ->
      extract_body payload
      = match body payload with
        | Some (mkBody (Some d)) => decode_data d
        | _ => inr ""
        end)
  /\ extract_body (top_level_only payload) = extract_body payload.
Proof.
  split; [|split].
  - intros pre p post b P F T B. unfold extract_body.
    rewrite P, (scan_parts_first pre post p b F T B).
    destruct (decode_data (get_default (data b) "")); reflexivity.
  - intro H. unfold extract_body.
    assert (L : match parts payload with
                | Some ps => scan_parts ps
                | None => inr None
                end = inr None).
    { destruct H as [-> | [ps [-> F]]]; [reflexivity | apply scan_parts_none, F]. }
    rewrite L. destruct (body payload) as [[[d|]]|]; reflexivity.
  - unfold extract_body, top_level_only. cbn [parts body].
    destruct (parts payload) as [ps|]; cbn [option_map]; [|reflexivity].
    rewrite scan_parts_prune. reflexivity.
Qed.

Lemma extract_body_scans_top_level_witness :
  extract_body
    (container "multipart/alternative"
       [mkPart (Some "text/html") None (Some (mkBody (Some "PGI-"))) None;
        plain_part "aGk="])
  = decode_data "aGk=".
Proof.
  apply (proj1 (extract_body_scans_top_level
                  (container "multipart/alternative"
                     [mkPart (Some "text/html") None (Some (mkBody (Some "PGI-"))) None;
                      plain_part "aGk="]))
               [mkPart (Some "text/html") None (Some (mkBody (Some "PGI-"))) None]
               (plain_part "aGk=") [] (mkBody (Some "aGk="))).
  - reflexivity.
  - constructor; [|constructor]. exists "text/html". split; [reflexivity | discriminate].
  - reflexivity.
  - reflexivity.
Defined.

(** C3, as stated, fails: [extract_body] raises [binascii.Error] when the
    data of the plain part is not well-formed base64, here for want of
    padding. *)
Lemma extract_body_raises_on_malformed_base64 :
  extract_body unpadded_message = inl (BinasciiError "Incorrect padding").
Proof.
  reflexivity.
Qed.

(** C3, amended.  Decoding the bytes as UTF-8 never raises: once the base64
    data is decoded, the result is a string whatever the bytes are (ASCII
    bytes are kept as they are, a byte that can start no UTF-8 sequence is
    dropped).  A
    payload none of whose own parts is of type [text/plain] and whose body
    has no data yields the empty string.  [extract_body] does raise, and
    only then, when the first of the payload's own parts that is not of
    another type has no [mimeType] or is a plain part without [body]
    ([KeyError]), or when the base64 decoder raises on the data selected:
    that of the first plain part or, without a plain part, that of the
    payload's own body.  The decoder raises [binascii.Error] in particular
    on data whose length is no multiple of four, as base64 without its
    padding is. *)
Theorem extract_body_raises_only_on_malformed_input (payload : MessagePart) :
  (forall d bs,
      Codec.urlsafe_b64decode d = inr bs ->
      decode_data d = inr (Codec.decode_utf8_ignore bs))
  /\ (parts payload = None
      \/ (exists ps, parts payload = Some ps /\ Forall not_plain ps) ->
      body payload = None \/ body payload = Some (mkBody None) ->
      extract_body payload = inr "")
  /\ (forall e, extract_body payload = inl e <-> extraction_raises payload e)
  /\ (forall d,
         Forall (fun c => In c base64url_alphabet) (list_ascii_of_string d) ->
         (String.length d mod 4 <> 0)%nat ->
         exists m, Codec.urlsafe_b64decode d = inl (BinasciiError m))
  /\ (forall bs,
         Forall (fun b => (Byte.to_N b < 128)%N) bs ->
         Codec.decode_utf8_ignore bs = string_of_list_byte bs)
  /\ (forall b rest,
         (128 <= Byte.to_N b <= 193 \/ 245 <= Byte.to_N b)%N ->
         Codec.decode_utf8_ignore (b :: rest) = Codec.decode_utf8_ignore rest).
Proof.
  split; [|split; [|split; [|split; [|split]]]].
  - intros d bs H. unfold decode_data. rewrite H. reflexivity.
  - intros P B. unfold extract_body.
    assert (L : match parts payload with
                | Some ps => scan_parts ps
                | None => inr None
                end = inr None).
    { destruct P as [-> | [ps [-> F]]]; [reflexivity | apply scan_parts_none, F]. }
    rewrite L. destruct B as [-> | ->]; reflexivity.
  - intro e. apply extract_body_raises_iff.
  - apply urlsafe_b64decode_dangling.
  - intros bs F. unfold Codec.decode_utf8_ignore. rewrite keep_utf8_ascii by exact F.
    reflexivity.
  - intros b rest H. unfold Codec.decode_utf8_ignore. rewrite keep_utf8_drops by exact H.
    reflexivity.
Qed.

Lemma extract_body_raises_only_on_malformed_input_witness :
  extract_body (container "multipart/related"
                  [mkPart (Some "image/png") None (Some (mkBody None)) None])
  = inr ""
  /\ extract_body
       (container "multipart/alternative"
          [mkPart (Some "text/html") None (Some (mkBody (Some "PGI-"))) None;
           plain_part "SGVsbG8"])
     = inl (BinasciiError "Incorrect padding").
Proof.
  split.
  - apply (proj1 (proj2 (extract_body_raises_only_on_malformed_input
                           (container "multipart/related"
                              [mkPart (Some "image/png") None (Some (mkBody None)) None])))).
    + right. exists [mkPart (Some "image/png") None (Some (mkBody None)) None].
      split; [reflexivity|].
      constructor; [|constructor]. exists "image/png". split; [reflexivity | discriminate].
    + right. reflexivity.
  - apply (proj2 (proj1 (proj2 (proj2 (extract_body_raises_only_on_malformed_input
                           (container "multipart/alternative"
                              [mkPart (Some "text/html") None (Some (mkBody (Some "PGI-"))) None;
                               plain_part "SGVsbG8"]))))
                        (BinasciiError "Incorrect padding"))).
    apply (raises_on_part_data _
             [mkPart (Some "text/html") None (Some (mkBody (Some "PGI-"))) None]
             (plain_part "SGVsbG8") [] (mkBody (Some "SGVsbG8"))).
    + reflexivity.
    + constructor; [|constructor]. exists "text/html". split; [reflexivity | discriminate].
    + reflexivity.
    + reflexivity.
    + reflexivity.
Defined.

(** ** Rounding *)

Section RoundingFacts.

Local Open Scope Q_scope.

Lemma round_half_even_bounds (x : Q) :
  (Qfloor x <= round_half_even x <= Qfloor x + 1)%Z.
Proof.
  unfold round_half_even.
  destruct (x - inject_Z (Qfloor x) ?= 1 # 2); [destruct (Z.even (Qfloor x))| |]; lia.
Qed.

(** An integer is its own rounding. *)
Lemma round_half_even_exact (x : Q) :
  x == inject_Z (Qfloor x) -> round_half_even x = Qfloor x.
Proof.
  intro E. unfold round_half_even.
  assert (L : x - inject_Z (Qfloor x) < 1 # 2) by lra.
  rewrite (proj1 (Qlt_alt _ _) L). reflexivity.
Qed.

Lemma round_half_even_range (x : Q) (n : Z) :
  (0 <= n)%Z -> 0 <= x -> x <= inject_Z n ->
  (0 <= round_half_even x <= n)%Z.
Proof.
  intros Hn L U.
  pose proof (round_half_even_bounds x) as B.
  pose proof (Qfloor_resp_le _ _ L) as F0. change (Qfloor 0) with 0%Z in F0.
  pose proof (Qfloor_resp_le _ _ U) as Fn. rewrite Qfloor_Z in Fn.
  split; [lia|].
  destruct (Z.eq_dec (Qfloor x) n) as [E | N]; [|lia].
  rewrite round_half_even_exact; [lia|].
  pose proof (Qfloor_le x) as FL. rewrite E in *. lra.
Qed.

(** A probability, as a percentage rounded to two places, lies between
    0 and 100. *)
Lemma py_round_percentage (p : Q) :
  0 <= p -> p <= 1 -> 0 <= py_round (p * 100) 2 /\ py_round (p * 100) 2 <= 100.
Proof.
  intros L U. unfold py_round.
  change (inject_Z (10 ^ Z.of_nat 2)) with 100.
  assert (R : (0 <= round_half_even (p * 100 * 100) <= 10000)%Z).
  { apply round_half_even_range; [lia | nra | ].
    change (inject_Z 10000) with 10000. nra. }
  destruct R as [R0 R1].
  assert (Q0 : 0 <= inject_Z (round_half_even (p * 100 * 100))).
  { change 0 with (inject_Z 0). rewrite <- Zle_Qle. exact R0. }
  assert (Q1 : inject_Z (round_half_even (p * 100 * 100)) <= 10000).
  { change 10000 with (inject_Z 10000). rewrite <- Zle_Qle. exact R1. }
  split.
  - apply Qle_shift_div_l; [reflexivity | lra].
  - apply Qle_shift_div_r; [reflexivity | lra].
Qed.

(** Rounding moves a number by a half at most, and to the even neighbour
    from half-way. *)
Lemma round_half_even_near (x : Q) :
  - (1 # 2) <= inject_Z (round_half_even x) - x
  /\ inject_Z (round_half_even x) - x <= 1 # 2
  /\ (inject_Z (round_half_even x) - x == 1 # 2
      \/ inject_Z (round_half_even x) - x == - (1 # 2) ->
      Z.even (round_half_even x) = true).
Proof.
  pose proof (Qfloor_le x) as L. pose proof (Qlt_floor x) as U.
  rewrite inject_Z_plus in U. change (inject_Z 1) with 1 in U.
  unfold round_half_even.
  destruct (x - inject_Z (Qfloor x) ?= 1 # 2) eqn:C.
  - apply Qeq_alt in C. destruct (Z.even (Qfloor x)) eqn:E.
    + repeat split; [lra | lra | auto].
    + rewrite inject_Z_plus. change (inject_Z 1) with 1.
      repeat split; [lra | lra |]. intros _.
      rewrite Z.add_1_r, Z.even_succ, <- Z.negb_even, E. reflexivity.
  - apply Qlt_alt in C. repeat split; [lra | lra |].
    intros [H | H]; exfalso; lra.
  - apply Qgt_alt in C. rewrite inject_Z_plus. change (inject_Z 1) with 1.
    repeat split; [lra | lra |].
    intros [H | H]; exfalso; lra.
Qed.

(** [round(x, 2)] is [x] rounded to two places. *)
Lemma py_round_rounds (x : Q) : rounded_to_2_places x (py_round x 2).
Proof.
  exists (round_half_even (x * 100)). unfold py_round.
  change (inject_Z (10 ^ Z.of_nat 2)) with 100.
  destruct (round_half_even_near (x * 100)) as [L [U T]].
  set (z := inject_Z (round_half_even (x * 100))) in *.
  assert (D : z / 100 == z * (1 # 100)) by (unfold Qdiv; reflexivity).
  split; [reflexivity|]. rewrite D.
  split; [lra|]. split; [lra|].
  intros [H | H]; apply T; [left | right]; lra.
Qed.

End RoundingFacts.

(** ** The classifier *)

Section ClassifierFacts.

Variable bert_probs : json -> result (list Q).

Ltac unfold_handler :=
  cbv [run predict_body predict fetch_gmail fetch_gmail_try try_except
       bind call lift ret raise].

(** [predict_body] makes one external call, whatever it returns or
    raises, and its outcome does not depend on earlier calls. *)
Lemma predict_body_log (text : json) (log : list event) :
  predict_body bert_probs text log
  = (fst (run (predict_body bert_probs text)), (log ++ [EvClassify text])%list).
Proof.
  unfold_handler. cbn [app].
  destruct (bert_probs text) as [e|probs]; [reflexivity|].
  destruct (argmax probs) as [e|i]; [reflexivity|].
  destruct (label_of LABEL_MAP i) as [e|l]; [reflexivity|].
  destruct (item probs i) as [e|p]; reflexivity.
Qed.

End ClassifierFacts.

(** C1.  When the model answers a text with two class probabilities,
    [predict_body] returns (it raises nothing) the label of the larger one,
    [Legitimate] on a tie, and as confidence that same probability times
    100, rounded to two decimal places: a whole number of hundredths within
    half a hundredth of the percentage, between 0 and 100; it is the
    probability of the chosen class, and not that of the class [Phishing]
    when [Legitimate] is chosen. *)
Theorem predict_body_label_and_confidence
    (bert_probs : json -> result (list Q)) (text : json) (p0 p1 : Q) :
  bert_probs text = inr [p0; p1] ->
  0 <= p0 <= 1 -> 0 <= p1 <= 1 ->
  exists r,
    run (predict_body bert_probs text) = (inr r, [EvClassify text])
    /\ (prediction r = "Legitimate" \/ prediction r = "Phishing")
    /\ (prediction r = "Legitimate" ->
        p1 <= p0
        /\ confidence r = py_round (p0 * 100) 2
        /\ rounded_to_2_places (p0 * 100) (confidence r))
    /\ (prediction r = "Phishing" ->
        p0 < p1
        /\ confidence r = py_round (p1 * 100) 2
        /\ rounded_to_2_places (p1 * 100) (confidence r))
    /\ 0 <= confidence r <= 100.
Proof.
  intros B [L0 U0] [L1 U1].
  cbv [run predict_body bind call lift ret]. rewrite B.
  cbn [app argmax argmax_from].
  destruct (Qle_bool p1 p0) eqn:C.
  - apply Qle_bool_iff in C.
    eexists. split; [reflexivity|]. cbn [prediction confidence].
    split; [left; reflexivity|].
    split; [intros _; split; [exact C | split; [reflexivity | apply py_round_rounds]]|].
    split; [discriminate|].
    apply py_round_percentage; assumption.
  - assert (C' : p0 < p1).
    { apply Qnot_le_lt. intro H. apply Qle_bool_iff in H. congruence. }
    eexists. split; [reflexivity|]. cbn [prediction confidence].
    split; [right; reflexivity|].
    split; [discriminate|].
    split; [intros _; split; [exact C' | split; [reflexivity | apply py_round_rounds]]|].
    apply py_round_percentage; assumption.
Qed.

Lemma predict_body_label_and_confidence_witness :
  exists r,
    run (predict_body (sample_bert (1 # 8) (7 # 8)) (JStr "Verify your account now"))
    = (inr r, [EvClassify (JStr "Verify your account now")])
    /\ (prediction r = "Legitimate" \/ prediction r = "Phishing")
    /\ (prediction r = "Legitimate" ->
        7 # 8 <= 1 # 8
        /\ confidence r = py_round ((1 # 8) * 100) 2
        /\ rounded_to_2_places ((1 # 8) * 100) (confidence r))
    /\ (prediction r = "Phishing" ->
        1 # 8 < 7 # 8
        /\ confidence r = py_round ((7 # 8) * 100) 2
        /\ rounded_to_2_places ((7 # 8) * 100) (confidence r))
    /\ 0 <= confidence r <= 100.
Proof.
  apply (predict_body_label_and_confidence
           (sample_bert (1 # 8) (7 # 8)) (JStr "Verify your account now") (1 # 8) (7 # 8)).
  - reflexivity.
  - split; discriminate.
  - split; discriminate.
Defined.

(** ** The routes *)

Section RouteFacts.

Variable bert_probs : json -> result (list Q).
Variable html_unescape : string -> string.

(** The [try] block up to the classifier, for a message that was fetched
    and whose body was extracted. *)
Lemma fetch_gmail_try_classifies
      (service : GmailApi) u results first rest msg p body_text :
  get_gmail_service service = inr u ->
  messages_list service = inr results ->
  messages results = Some (first :: rest) ->
  messages_get service (id first) = inr msg ->
  payload msg = Some p ->
  extract_body p = inr body_text ->
  run (fetch_gmail_try bert_probs html_unescape service)
  = match fst (run (predict_body bert_probs (text_to_classify body_text msg))) with
    | inl e =>
        (inl e, [EvAuth; EvList; EvGet (id first);
                 EvClassify (text_to_classify body_text msg)])
    | inr body_result =>
        (inr (mkResponse 200
                (JObj [("email_snippet",
                        JStr (slice_to 80 (html_unescape (get_default (snippet msg) ""))
                              ++ "..."));
                       ("body_prediction", json_of_result body_result);
                       ("sender_info",
                        json_of_sender (analyze_sender (get_default (headers p) [])))])),
         [EvAuth; EvList; EvGet (id first);
          EvClassify (text_to_classify body_text msg)])
    end.
Proof.
  intros A L M G P X.
  cbv [run fetch_gmail_try bind call lift ret raise].
  rewrite A, L, M. cbn [app get_default]. rewrite G, P. cbn [get_default]. rewrite X.
  fold (text_to_classify body_text msg).
  rewrite predict_body_log. cbv [run]. cbn [app].
  destruct (fst (predict_body bert_probs (text_to_classify body_text msg) []));
    reflexivity.
Qed.

(** Every way for the [try] block to raise is one of [fetch_failure]. *)
Lemma fetch_gmail_try_raises (service : GmailApi) (e : exn) (log : list event) :
  run (fetch_gmail_try bert_probs html_unescape service) = (inl e, log) ->
  fetch_failure bert_probs service e log.
Proof.
  destruct (get_gmail_service service) as [ea|u] eqn:A.
  { cbv [run fetch_gmail_try bind call]. rewrite A. cbn [app].
    intro H. injection H as <- <-. apply fail_auth, A. }
  destruct (messages_list service) as [el|results] eqn:L.
  { cbv [run fetch_gmail_try bind call]. rewrite A, L. cbn [app].
    intro H. injection H as <- <-. apply (fail_list _ _ u); assumption. }
  destruct (messages results) as [[|first rest]|] eqn:M.
  { cbv [run fetch_gmail_try bind call ret]. rewrite A, L, M. cbn [app get_default].
    discriminate. }
  2:{ cbv [run fetch_gmail_try bind call ret]. rewrite A, L, M. cbn [app get_default].
      discriminate. }
  destruct (messages_get service (id first)) as [eg|msg] eqn:G.
  { cbv [run fetch_gmail_try bind call]. rewrite A, L, M. cbn [app get_default].
    rewrite G. intro H. injection H as <- <-.
    apply (fail_get _ _ u results first rest); assumption. }
  destruct (payload msg) as [p|] eqn:P.
  2:{ cbv [run fetch_gmail_try bind call raise]. rewrite A, L, M. cbn [app get_default].
      rewrite G, P. intro H. injection H as <- <-.
      apply (fail_payload _ _ u results first rest msg); assumption. }
  destruct (extract_body p) as [ex|body_text] eqn:X.
  { cbv [run fetch_gmail_try bind call lift ret]. rewrite A, L, M. cbn [app get_default].
    rewrite G, P. cbn [get_default]. rewrite X. intro H. injection H as <- <-.
    apply (fail_decode _ _ u results first rest msg p); assumption. }
  rewrite (fetch_gmail_try_classifies service u results first rest msg p body_text)
    by assumption.
  destruct (fst (run (predict_body bert_probs (text_to_classify body_text msg))))
    as [ec|r] eqn:C; [|discriminate].
  intro H. injection H as <- <-.
  apply (fail_classify _ _ u results first rest msg p body_text); assumption.
Qed.

(** Each failure of [fetch_failure] does make the [try] block raise. *)
Lemma fetch_failure_raises (service : GmailApi) (e : exn) (log : list event) :
  fetch_failure bert_probs service e log ->
  run (fetch_gmail_try bert_probs html_unescape service) = (inl e, log).
Proof.
  intros [ e' A
         | u e' A L
         | u results first rest e' A L M G
         | u results first rest msg A L M G P
         | u results first rest msg p e' A L M G P X
         | u results first rest msg p body_text e' A L M G P X C ].
  - cbv [run fetch_gmail_try bind call]. rewrite A. reflexivity.
  - cbv [run fetch_gmail_try bind call]. rewrite A, L. reflexivity.
  - cbv [run fetch_gmail_try bind call]. rewrite A, L, M. cbn [app get_default].
    rewrite G. reflexivity.
  - cbv [run fetch_gmail_try bind call raise]. rewrite A, L, M. cbn [app get_default].
    rewrite G, P. reflexivity.
  - cbv [run fetch_gmail_try bind call lift ret]. rewrite A, L, M. cbn [app get_default].
    rewrite G, P. cbn [get_default]. rewrite X. reflexivity.
  - rewrite (fetch_gmail_try_classifies service u results first rest msg p body_text)
      by assumption.
    rewrite C. reflexivity.
Qed.

End RouteFacts.

(** No external call is made twice. *)
Lemma fetch_failure_no_retry
    (bert_probs : json -> result (list Q)) (service : GmailApi)
    (e : exn) (log : list event) :
  fetch_failure bert_probs service e log -> NoDup log.
Proof.
  intros []; repeat constructor; cbn [In]; intuition discriminate.
Qed.

(** C8.  The claim does not hold of the code at the JSON body [5]: it has
    no ["text"] field, yet [/predict] does not answer 400 with
    [{"error": "No text provided"}].  The test ["text" not in data] raises
    a [TypeError] on a number, and the exception leaves the handler (no
    call to the classifier is made). *)
Theorem predict_number_body_not_rejected :
  run (predict (sample_bert (1 # 8) (7 # 8)) (JInt 5))
  = (inl (TypeError "argument of type 'int' is not iterable"), [])
  /\ fst (run (predict (sample_bert (1 # 8) (7 # 8)) (JInt 5)))
     <> inr (mkResponse 400 (JObj [("error", JStr "No text provided")])).
Proof.
  split; [reflexivity | discriminate].
Qed.

(** X19.  When the parsed body is absent or empty ([None], [{}], or any
    other false value), or is an object without the key ["text"],
    [/predict] answers 400 with [{"error": "No text provided"}] and calls
    nothing.  When it is an object with the key ["text"], the value goes to
    the classifier, once, and when the classifier returns a result the
    answer is 200 with the prediction and the confidence of that result. *)
Theorem predict_requires_text (bert_probs : json -> result (list Q)) (data : json) :
  (truthy data = false ->
   run (predict bert_probs data)
   = (inr (mkResponse 400 (JObj [("error", JStr "No text provided")])), []))
  /\ (forall kv,
         data = JObj kv -> lookup "text" kv = None ->
         run (predict bert_probs data)
         = (inr (mkResponse 400 (JObj [("error", JStr "No text provided")])), []))
  /\ (forall kv text r,
         data = JObj kv -> lookup "text" kv = Some text ->
         fst (run (predict_body bert_probs text)) = inr r ->
         run (predict bert_probs data)
         = (inr (mkResponse 200
                   (JObj [("prediction", JStr (prediction r));
                          ("confidence", JFloat (confidence r))])),
            [EvClassify text])).
Proof.
  split; [|split].
  - intro F. cbv [run predict bind ret]. rewrite F. reflexivity.
  - intros kv -> N. cbv [run predict bind ret lift text_in]. rewrite N.
    destruct kv; reflexivity.
  - intros kv text r -> S C.
    assert (T : truthy (JObj kv) = true) by (destruct kv; [discriminate S | reflexivity]).
    cbv [run predict bind ret lift text_in get_text]. rewrite T, S. cbn [negb].
    rewrite predict_body_log, C. reflexivity.
Qed.

Lemma predict_requires_text_witness :
  run (predict (sample_bert (1 # 8) (7 # 8)) JNull)
  = (inr (mkResponse 400 (JObj [("error", JStr "No text provided")])), [])
  /\ run (predict (sample_bert (1 # 8) (7 # 8)) (JObj [("subject", JStr "Invoice")]))
     = (inr (mkResponse 400 (JObj [("error", JStr "No text provided")])), [])
  /\ run (predict (sample_bert (1 # 8) (7 # 8))
            (JObj [("text", JStr "Verify your account now")]))
     = (inr (mkResponse 200
               (JObj [("prediction", JStr "Phishing");
                      ("confidence", JFloat (py_round ((7 # 8) * 100) 2))])),
        [EvClassify (JStr "Verify your account now")]).
Proof.
  split; [|split].
  - apply (proj1 (predict_requires_text (sample_bert (1 # 8) (7 # 8)) JNull)).
    reflexivity.
  - apply (proj1 (proj2 (predict_requires_text (sample_bert (1 # 8) (7 # 8))
                           (JObj [("subject", JStr "Invoice")])))
                 [("subject", JStr "Invoice")]); reflexivity.
  - apply (proj2 (proj2 (predict_requires_text (sample_bert (1 # 8) (7 # 8))
                           (JObj [("text", JStr "Verify your account now")])))
                 [("text", JStr "Verify your account now")]
                 (JStr "Verify your account now")
                 (mkResult "Phishing" (py_round ((7 # 8) * 100) 2))); reflexivity.
Defined.

(** C9.  When authentication succeeds and the mail API lists no unread
    message (no ["messages"] key, or an empty list), [/fetch_gmail] answers
    404 with [{"error": "No unread emails found"}]; the calls made are the
    authentication and the listing, and the classifier is not among
    them. *)
Theorem fetch_gmail_no_unread
    (bert_probs : json -> result (list Q)) (html_unescape : string -> string)
    (service : GmailApi) (u : unit) (results : ListResponse) :
  get_gmail_service service = inr u ->
  messages_list service = inr results ->
  messages results = None \/ messages results = Some [] ->
  run (fetch_gmail bert_probs html_unescape service)
  = (inr (mkResponse 404 (JObj [("error", JStr "No unread emails found")])),
     [EvAuth; EvList])
  /\ existsb is_classify (snd (run (fetch_gmail bert_probs html_unescape service))) = false.
Proof.
  intros A L M.
  assert (R : run (fetch_gmail bert_probs html_unescape service)
              = (inr (mkResponse 404 (JObj [("error", JStr "No unread emails found")])),
                 [EvAuth; EvList])).
  { cbv [run fetch_gmail try_except fetch_gmail_try bind call ret]. rewrite A, L.
    destruct M as [-> | ->]; reflexivity. }
  rewrite R. split; reflexivity.
Qed.

Lemma fetch_gmail_no_unread_witness :
  run (fetch_gmail (sample_bert (1 # 8) (7 # 8)) (fun s => s) empty_inbox)
  = (inr (mkResponse 404 (JObj [("error", JStr "No unread emails found")])),
     [EvAuth; EvList])
  /\ existsb is_classify
       (snd (run (fetch_gmail (sample_bert (1 # 8) (7 # 8)) (fun s => s) empty_inbox)))
     = false.
Proof.
  apply (fetch_gmail_no_unread (sample_bert (1 # 8) (7 # 8)) (fun s => s)
           empty_inbox tt (mkList None)).
  - reflexivity.
  - reflexivity.
  - left. reflexivity.
Defined.

(** C10.  Whatever raises inside the [try] block of [/fetch_gmail] is
    caught: the answer is 500 with the body [{"error": str(e)}] and
    nothing else, and the handler itself never raises.  The exceptions are
    those of [fetch_failure] (authentication, listing, fetching, the
    payload and its decoding, classification) and each of them ends the
    request: the calls logged are those made before it, none of them twice.
    The text [str(e)] is the message of the exception; for a [KeyError] it
    is the key, in quotes when the key is a string. *)
Theorem fetch_gmail_exceptions_become_500
    (bert_probs : json -> result (list Q)) (html_unescape : string -> string)
    (service : GmailApi) :
  (forall e log,
      run (fetch_gmail_try bert_probs html_unescape service) = (inl e, log) ->
      run (fetch_gmail bert_probs html_unescape service)
      = (inr (mkResponse 500 (JObj [("error", JStr (str_exn e))])), log))
  /\ (forall e log,
         fetch_failure bert_probs service e log ->
         run (fetch_gmail bert_probs html_unescape service)
         = (inr (mkResponse 500 (JObj [("error", JStr (str_exn e))])), log)
         /\ NoDup log)
  /\ (forall e log,
         run (fetch_gmail_try bert_probs html_unescape service) = (inl e, log) ->
         fetch_failure bert_probs service e log)
  /\ (exists response log,
         run (fetch_gmail bert_probs html_unescape service) = (inr response, log))
  /\ (forall m,
         str_exn (RemoteError m) = m /\ str_exn (TypeError m) = m
         /\ str_exn (ValueError m) = m /\ str_exn (BinasciiError m) = m
         /\ str_exn (IndexError m) = m)
  /\ (forall k, str_exn (KeyError k) = "'" ++ k ++ "'")
  /\ (forall n, str_exn (KeyErrorInt n) = NilZero.string_of_uint (Nat.to_uint n)).
Proof.
  assert (C : forall e log,
             run (fetch_gmail_try bert_probs html_unescape service) = (inl e, log) ->
             run (fetch_gmail bert_probs html_unescape service)
             = (inr (mkResponse 500 (JObj [("error", JStr (str_exn e))])), log)).
  { intros e log H. unfold run in *. unfold fetch_gmail, try_except. rewrite H. reflexivity. }
  split; [exact C|]. split; [|split; [|split; [|split; [|split]]]].
  - intros e log F. split.
    + apply C, fetch_failure_raises, F.
    + apply (fetch_failure_no_retry bert_probs service e log F).
  - apply fetch_gmail_try_raises.
  - destruct (run (fetch_gmail_try bert_probs html_unescape service)) as [[e|r] log] eqn:T.
    + exists (mkResponse 500 (JObj [("error", JStr (str_exn e))])), log.
      apply C. reflexivity.
    + exists r, log. unfold run in *. unfold fetch_gmail, try_except. rewrite T. reflexivity.
  - intro m. repeat split.
  - intro k. reflexivity.
  - intro n. reflexivity.
Qed.

Lemma fetch_gmail_exceptions_become_500_witness :
  run (fetch_gmail (sample_bert (1 # 8) (7 # 8)) (fun s => s) refused_login)
  = (inr (mkResponse 500
            (JObj [("error", JStr "invalid_grant: Token has been expired or revoked.")])),
     [EvAuth])
  /\ NoDup [EvAuth].
Proof.
  apply (proj1 (proj2 (fetch_gmail_exceptions_become_500
                         (sample_bert (1 # 8) (7 # 8)) (fun s => s) refused_login))
               (RemoteError "invalid_grant: Token has been expired or revoked.")
               [EvAuth]).
  apply fail_auth. reflexivity.
Defined.

(** * Further properties *)

(** ** Letter case and the sender analysis *)

Section LetterCase.

Local Open Scope string_scope.





















End LetterCase.

Local Open Scope string_scope.



(** X3.  A sender without ["@"] (in particular no [From] header at all) has
    the domain ["unknown"] and the flags [["None"]]; without a [From]
    header the sender itself is the empty string. *)
Theorem analyze_sender_without_address (hs : list Header) :
  (~ PyStr.occurs "@" (sender (analyze_sender hs)) ->
   domain (analyze_sender hs) = "unknown" /\ flags (analyze_sender hs) = ["None"])
  /\ ((forall h, In h hs -> ~ In (name h) from_spellings) ->
      analyze_sender hs = mkSenderAnalysis "" "unknown" ["None"]).
Proof.
  split.
  - intro N.
    assert (D : domain (analyze_sender hs) = "unknown").
    { cbn [analyze_sender sender domain] in *. unfold email_domain.
      destruct (PyStr.contains "@" (sender_email (from_header hs))) eqn:C; [|reflexivity].
      apply contains_char in C. contradiction. }
    split; [exact D|]. rewrite analyze_sender_flags, D. reflexivity.
  - intro A. unfold analyze_sender. rewrite (from_header_absent hs A). reflexivity.
Qed.

Lemma analyze_sender_without_address_witness :
  domain (analyze_sender [mkHeader "From" "MAILER-DAEMON"]) = "unknown"
  /\ flags (analyze_sender [mkHeader "From" "MAILER-DAEMON"]) = ["None"].
Proof.
  apply (proj1 (analyze_sender_without_address [mkHeader "From" "MAILER-DAEMON"])).
  intro O. apply contains_char in O. discriminate O.
Defined.

(** X4.  Only the first [From] header counts: headers before it with other
    names, and every header after it, change nothing. *)
Theorem analyze_sender_first_from (pre post : list Header) (h : Header) :
  (forall h', In h' pre -> ~ In (name h') from_spellings) ->
  In (name h) from_spellings ->
  analyze_sender (pre ++ h :: post)%list = analyze_sender [h].
Proof.
  intros NP I. unfold analyze_sender.
  rewrite (from_header_first pre post h NP I).
  assert (E : from_header [h] = value h).
  { apply (from_header_first [] [] h); [intros ? [] | exact I]. }
  rewrite E. reflexivity.
Qed.

Lemma analyze_sender_first_from_witness :
  analyze_sender ([mkHeader "To" "me@example.org"]
                    ++ mkHeader "FROM" "Ann <ann@github.com>"
                    :: [mkHeader "From" "Eve <eve@paypa1.xyz>"])%list
  = analyze_sender [mkHeader "FROM" "Ann <ann@github.com>"].
Proof.
  apply (analyze_sender_first_from [mkHeader "To" "me@example.org"]
           [mkHeader "From" "Eve <eve@paypa1.xyz>"]
           (mkHeader "FROM" "Ann <ann@github.com>")).
  - intros h' [<- | []]. vm_compute. intuition discriminate.
  - vm_compute. tauto.
Defined.

(** X5.  The flags are either [["None"]] alone or some of the four rule
    flags, in the order of the rules; no flag is repeated, and there are
    between one and three of them. *)
Theorem analyze_sender_flags_shape (hs : list Header) :
  (flags (analyze_sender hs) = ["None"]
   \/ picked_from (flags (analyze_sender hs)) all_flags = true)
  /\ NoDup (flags (analyze_sender hs))
  /\ (1 <= length (flags (analyze_sender hs)) <= 3)%nat.
Proof.
  rewrite analyze_sender_flags.
  generalize (domain (analyze_sender hs)) as d. intro d.
  destruct (rule_whitelist d) eqn:W.
  - apply whitelist_members in W. simpl in W.
    repeat (destruct W as [<- | W];
            [split; [right; reflexivity
                    | split; [repeat constructor; cbn [In]; tauto | cbn; lia]]|]).
    destruct W.
  - rewrite rule_flags_fired, W.
    destruct (rule_typosquatting d), (rule_tld d), (rule_subdomains d); cbn [fired];
      (split; [first [left; reflexivity | right; reflexivity]
              | split; [repeat constructor; cbv; intuition discriminate | cbn; lia]]).
Qed.

(** ** The classifier and the routes, further *)

Section PreviewFacts.

Lemma slice_to_prefix (n : nat) (s : string) :
  exists rest, s = (slice_to n s ++ rest)%string.
Proof.
  revert n. induction s as [|c s IH]; intro n; simpl.
  - exists "". reflexivity.
  - destruct (Codec.cont (Codec.code c)).
    + destruct (IH n) as [rest E]. exists rest. simpl. congruence.
    + destruct n as [|k].
      * exists (String c s). reflexivity.
      * destruct (IH k) as [rest E]. exists rest. simpl. congruence.
Qed.

Lemma slice_to_count (n : nat) (s : string) :
  (char_count (slice_to n s) <= n)%nat.
Proof.
  revert n. induction s as [|c s IH]; intro n; simpl; [lia|].
  destruct (Codec.cont (Codec.code c)) eqn:C.
  - simpl. rewrite C. apply IH.
  - destruct n as [|k]; simpl; [lia|]. rewrite C. specialize (IH k). lia.
Qed.

Lemma slice_to_all (n : nat) (s : string) :
  (char_count s <= n)%nat -> slice_to n s = s.
Proof.
  revert n. induction s as [|c s IH]; intros n H; simpl in *; [reflexivity|].
  destruct (Codec.cont (Codec.code c)).
  - rewrite IH by lia. reflexivity.
  - destruct n as [|k]; [lia|]. rewrite IH by lia. reflexivity.
Qed.

End PreviewFacts.

(** X6.  [s[:n]] as the preview of [/fetch_gmail] uses it: the slice is
    the beginning of [s], has at most [n] characters, and is all of [s]
    when [s] has no more than [n]; with the three dots appended the
    preview has at most [n + 3] characters. *)
Theorem preview_is_bounded_prefix (n : nat) (s : string) :
  (exists rest, s = (slice_to n s ++ rest)%string)
  /\ (char_count (slice_to n s) <= n)%nat
  /\ ((char_count s <= n)%nat -> slice_to n s = s)
  /\ (char_count (slice_to n s ++ "...") <= n + 3)%nat.
Proof.
  split; [apply slice_to_prefix|].
  split; [apply slice_to_count|].
  split; [apply slice_to_all|].
  assert (A : forall a b, char_count (a ++ b) = (char_count a + char_count b)%nat).
  { induction a as [|c a IH]; intro b; simpl; [reflexivity|]. rewrite IH. lia. }
  rewrite A. pose proof (slice_to_count n s). simpl. lia.
Qed.

Lemma preview_is_bounded_prefix_witness :
  slice_to 80 "Your parcel is waiting" = "Your parcel is waiting".
Proof.
  apply (proj1 (proj2 (proj2 (preview_is_bounded_prefix 80 "Your parcel is waiting")))).
  cbn. lia.
Defined.

Section ConfidenceFacts.

Local Open Scope Q_scope.

Lemma round_half_even_at_least (x : Q) (n : Z) :
  inject_Z n <= x -> (n <= round_half_even x)%Z.
Proof.
  intro H. pose proof (round_half_even_bounds x) as B.
  pose proof (Qfloor_resp_le _ _ H) as F. rewrite Qfloor_Z in F. lia.
Qed.

Lemma py_round_at_least_half (p : Q) :
  1 # 2 <= p -> 50 <= py_round (p * 100) 2.
Proof.
  intro H. unfold py_round.
  change (inject_Z (10 ^ Z.of_nat 2)) with 100.
  assert (R : (5000 <= round_half_even (p * 100 * 100))%Z).
  { apply round_half_even_at_least. change (inject_Z 5000) with 5000. nra. }
  assert (Q1 : 5000 <= inject_Z (round_half_even (p * 100 * 100))).
  { change 5000 with (inject_Z 5000). rewrite <- Zle_Qle. exact R. }
  apply Qle_shift_div_l; [reflexivity | lra].
Qed.

End ConfidenceFacts.

(** X7.  When the two probabilities add up to one, as after a softmax,
    the confidence [predict_body] reports is at least 50. *)
Theorem predict_body_confidence_at_least_half
    (bert_probs : json -> result (list Q)) (text : json) (p0 p1 : Q) :
  bert_probs text = inr [p0; p1] ->
  p0 + p1 == 1 ->
  exists r,
    run (predict_body bert_probs text) = (inr r, [EvClassify text])
    /\ 50 <= confidence r.
Proof.
  intros B S.
  cbv [run predict_body bind call lift ret]. rewrite B.
  cbn [app argmax argmax_from].
  destruct (Qle_bool p1 p0) eqn:C.
  - apply Qle_bool_iff in C.
    eexists. split; [reflexivity|]. cbn [confidence].
    apply py_round_at_least_half. lra.
  - assert (C' : p0 < p1).
    { apply Qnot_le_lt. intro H. apply Qle_bool_iff in H. congruence. }
    eexists. split; [reflexivity|]. cbn [confidence].
    apply py_round_at_least_half. lra.
Qed.

Lemma predict_body_confidence_at_least_half_witness :
  exists r,
    run (predict_body (sample_bert (1 # 2) (1 # 2)) (JStr "hello"))
    = (inr r, [EvClassify (JStr "hello")])
    /\ 50 <= confidence r.
Proof.
  apply (predict_body_confidence_at_least_half
           (sample_bert (1 # 2) (1 # 2)) (JStr "hello") (1 # 2) (1 # 2)).
  - reflexivity.
  - reflexivity.
Defined.

(** X8.  A body that is not a JSON object never reaches the classifier:
    [/predict] answers 400 or lets a [TypeError] out, and calls nothing. *)
Theorem predict_only_classifies_objects
    (bert_probs : json -> result (list Q)) (data : json) :
  (forall kv, data <> JObj kv) ->
  snd (run (predict bert_probs data)) = []
  /\ (fst (run (predict bert_probs data))
      = inr (mkResponse 400 (error_body "No text provided"))
      \/ exists msg, fst (run (predict bert_probs data)) = inl (TypeError msg)).
Proof.
  intro N. destruct data as [|b|z|q|s|l|kv].
  - split; [reflexivity | left; reflexivity].
  - destruct b; cbv [run predict bind ret lift truthy negb text_in];
      (split; [reflexivity|]); [right; eexists; reflexivity | left; reflexivity].
  - cbv [run predict bind ret lift truthy text_in].
    destruct (z =? 0)%Z; cbn [negb];
      (split; [reflexivity|]); [left; reflexivity | right; eexists; reflexivity].
  - cbv [run predict bind ret lift truthy text_in].
    destruct (Qeq_bool q 0); cbn [negb];
      (split; [reflexivity|]); [left; reflexivity | right; eexists; reflexivity].
  - cbv [run predict bind ret lift truthy text_in get_text].
    destruct (String.eqb s ""); cbn [negb]; [split; [reflexivity | left; reflexivity]|].
    destruct (PyStr.contains "text" s); cbn [negb];
      (split; [reflexivity|]); [right; eexists; reflexivity | left; reflexivity].
  - cbv [run predict bind ret lift truthy text_in get_text].
    destruct l as [|x l]; cbn [negb]; [split; [reflexivity | left; reflexivity]|].
    destruct (existsb is_text (x :: l)); cbn [negb];
      (split; [reflexivity|]); [right; eexists; reflexivity | left; reflexivity].
  - exfalso. apply (N kv). reflexivity.
Qed.

Lemma predict_only_classifies_objects_witness :
  snd (run (predict (sample_bert (1 # 8) (7 # 8)) (JArr [JStr "text"]))) = []
  /\ (fst (run (predict (sample_bert (1 # 8) (7 # 8)) (JArr [JStr "text"])))
      = inr (mkResponse 400 (error_body "No text provided"))
      \/ exists msg,
        fst (run (predict (sample_bert (1 # 8) (7 # 8)) (JArr [JStr "text"])))
        = inl (TypeError msg)).
Proof.
  apply (predict_only_classifies_objects (sample_bert (1 # 8) (7 # 8)) (JArr [JStr "text"])).
  intros kv H. discriminate H.
Defined.

(** X9.  [/predict] has no handler of its own for exceptions: when the
    classifier raises on the value of ["text"], that exception leaves the
    route, after the one call to the classifier. *)
Theorem predict_lets_classifier_exceptions_out
    (bert_probs : json -> result (list Q))
    (kv : list (string * json)) (text : json) (e : exn) :
  lookup "text" kv = Some text ->
  fst (run (predict_body bert_probs text)) = inl e ->
  run (predict bert_probs (JObj kv)) = (inl e, [EvClassify text]).
Proof.
  intros S C.
  assert (T : truthy (JObj kv) = true) by (destruct kv; [discriminate S | reflexivity]).
  cbv [run predict bind ret lift text_in get_text]. rewrite T, S. cbn [negb].
  rewrite predict_body_log, C. reflexivity.
Qed.

Lemma predict_lets_classifier_exceptions_out_witness :
  run (predict (sample_bert (1 # 8) (7 # 8)) (JObj [("text", JInt 5)]))
  = (inl (ValueError "text input must be of type `str`"), [EvClassify (JInt 5)]).
Proof.
  apply (predict_lets_classifier_exceptions_out (sample_bert (1 # 8) (7 # 8))
           [("text", JInt 5)] (JInt 5)); reflexivity.
Defined.

Section FetchOutcomes.

Variable bert_probs : json -> result (list Q).
Variable html_unescape : string -> string.

(** The [try] block ends in one of three ways. *)
Lemma fetch_gmail_try_outcome (service : GmailApi) :
  (exists e log,
      run (fetch_gmail_try bert_probs html_unescape service) = (inl e, log)
      /\ fetch_failure bert_probs service e log)
  \/ (exists u results,
         get_gmail_service service = inr u
         /\ messages_list service = inr results
         /\ get_default (messages results) [] = []
         /\ run (fetch_gmail_try bert_probs html_unescape service)
            = (inr (mkResponse 404 (error_body "No unread emails found")),
               [EvAuth; EvList]))
  \/ (exists u results first rest body i t,
         get_gmail_service service = inr u
         /\ messages_list service = inr results
         /\ messages results = Some (first :: rest)
         /\ run (fetch_gmail_try bert_probs html_unescape service)
            = (inr (mkResponse 200 body), [EvAuth; EvList; EvGet i; EvClassify t])).
Proof.
  destruct (run (fetch_gmail_try bert_probs html_unescape service)) as [[e|r] log] eqn:T.
  { left. exists e, log. split; [reflexivity|].
    apply (fetch_gmail_try_raises bert_probs html_unescape), T. }
  right. revert T.
  destruct (get_gmail_service service) as [ea|u] eqn:A.
  { cbv [run fetch_gmail_try bind call]. rewrite A. discriminate. }
  destruct (messages_list service) as [el|results] eqn:L.
  { cbv [run fetch_gmail_try bind call]. rewrite A, L. discriminate. }
  destruct (messages results) as [[|first rest]|] eqn:M.
  - cbv [run fetch_gmail_try bind call ret]. rewrite A, L, M. cbn [app get_default].
    intro H. injection H as <- <-. left. exists u, results.
    rewrite M. repeat split; reflexivity.
  - destruct (messages_get service (id first)) as [eg|msg] eqn:G.
    { cbv [run fetch_gmail_try bind call]. rewrite A, L, M. cbn [app get_default].
      rewrite G. discriminate. }
    destruct (payload msg) as [p|] eqn:P.
    2:{ cbv [run fetch_gmail_try bind call raise]. rewrite A, L, M. cbn [app get_default].
        rewrite G, P. discriminate. }
    destruct (extract_body p) as [ex|body_text] eqn:X.
    { cbv [run fetch_gmail_try bind call lift ret]. rewrite A, L, M. cbn [app get_default].
      rewrite G, P. cbn [get_default]. rewrite X. discriminate. }
    rewrite (fetch_gmail_try_classifies bert_probs html_unescape
               service u results first rest msg p body_text) by assumption.
    destruct (fst (run (predict_body bert_probs (text_to_classify body_text msg))))
      as [ec|br]; [discriminate|].
    intro H. injection H as <- <-. right.
    exists u, results, first, rest. do 3 eexists.
    repeat split. exact M.
  - cbv [run fetch_gmail_try bind call ret]. rewrite A, L, M. cbn [app get_default].
    intro H. injection H as <- <-. left. exists u, results.
    rewrite M. repeat split; reflexivity.
Qed.

Lemma fetch_failure_has_work (service : GmailApi) (e : exn) (log : list event) :
  fetch_failure bert_probs service e log ->
  ~ exists u results,
      get_gmail_service service = inr u
      /\ messages_list service = inr results
      /\ get_default (messages results) [] = [].
Proof.
  intros F [u' [results' [A' [L' M']]]].
  destruct F; try congruence;
    match goal with
    | L : messages_list service = inr ?r, M : messages ?r = Some _ |- _ =>
        rewrite L in L'; injection L' as <-; rewrite M in M'; discriminate M'
    end.
Qed.

End FetchOutcomes.

(** X10.  [/fetch_gmail] always answers, with status 200, 404 or 500 and
    nothing else.  It answers 404 exactly when authentication and listing
    succeed and no message is listed, and a 200 comes after exactly four
    external calls: authentication, listing, one fetch and one
    classification. *)
Theorem fetch_gmail_statuses
    (bert_probs : json -> result (list Q)) (html_unescape : string -> string)
    (service : GmailApi) :
  exists response log,
    run (fetch_gmail bert_probs html_unescape service) = (inr response, log)
    /\ (status response = 200 \/ status response = 404 \/ status response = 500)%nat
    /\ (status response = 404%nat
        <-> exists u results,
          get_gmail_service service = inr u
          /\ messages_list service = inr results
          /\ get_default (messages results) [] = [])
    /\ (status response = 200%nat ->
        exists i t, log = [EvAuth; EvList; EvGet i; EvClassify t]).
Proof.
  destruct (fetch_gmail_try_outcome bert_probs html_unescape service)
    as [[e [log [T F]]]
       | [[u [results [A [L [M T]]]]]
         | [u [results [first [rest [body [i [t [A [L [M T]]]]]]]]]]]].
  - exists (mkResponse 500 (error_body (str_exn e))), log.
    split; [unfold run in *; unfold fetch_gmail, try_except; rewrite T; reflexivity|].
    cbn [status]. split; [auto|]. split; [|discriminate].
    split; [discriminate|].
    intro H. exfalso. exact (fetch_failure_has_work bert_probs service e log F H).
  - exists (mkResponse 404 (error_body "No unread emails found")), [EvAuth; EvList].
    split; [unfold run in *; unfold fetch_gmail, try_except; rewrite T; reflexivity|].
    cbn [status]. split; [auto|]. split; [|discriminate].
    split; [intros _; exists u, results; auto | reflexivity].
  - exists (mkResponse 200 body), [EvAuth; EvList; EvGet i; EvClassify t].
    split; [unfold run in *; unfold fetch_gmail, try_except; rewrite T; reflexivity|].
    cbn [status]. split; [auto|]. split; [|intros _; exists i, t; reflexivity].
    split; [discriminate|].
    intros [u' [results' [A' [L' M']]]].
    rewrite L in L'. injection L' as <-. rewrite M in M'. discriminate M'.
Qed.

(** X11.  The successful path of [/fetch_gmail]: of the messages listed
    only the first is fetched; the classifier gets its body, or its
    snippet when the body extracted is empty; the answer carries the
    preview of the snippet, the classification and the analysis of the
    payload's headers. *)
Theorem fetch_gmail_success
    (bert_probs : json -> result (list Q)) (html_unescape : string -> string)
    (service : GmailApi) (u : unit) (results : ListResponse)
    (first : MessageRef) (rest : list MessageRef) (msg : Message)
    (p : MessagePart) (body_text : string) (r : ClassificationResult) :
  get_gmail_service service = inr u ->
  messages_list service = inr results ->
  messages results = Some (first :: rest) ->
  messages_get service (id first) = inr msg ->
  payload msg = Some p ->
  extract_body p = inr body_text ->
  fst (run (predict_body bert_probs (text_to_classify body_text msg))) = inr r ->
  run (fetch_gmail bert_probs html_unescape service)
  = (inr (mkResponse 200
            (JObj [("email_snippet",
                    JStr (slice_to 80 (html_unescape (get_default (snippet msg) ""))
                          ++ "..."));
                   ("body_prediction", json_of_result r);
                   ("sender_info",
                    json_of_sender (analyze_sender (get_default (headers p) [])))])),
     [EvAuth; EvList; EvGet (id first); EvClassify (text_to_classify body_text msg)]).
Proof.
  intros A L M G P X C.
  pose proof (fetch_gmail_try_classifies bert_probs html_unescape
                service u results first rest msg p body_text A L M G P X) as T.
  rewrite C in T.
  unfold run in *. unfold fetch_gmail, try_except. rewrite T. reflexivity.
Qed.

Lemma fetch_gmail_success_witness :
  run (fetch_gmail (sample_bert (9 # 10) (1 # 10)) (fun s => s) (one_unread nested_message))
  = (inr (mkResponse 200
            (JObj [("email_snippet", JStr "Hello &amp; welcome...");
                   ("body_prediction",
                    json_of_result (mkResult "Legitimate" (py_round ((9 # 10) * 100) 2)));
                   ("sender_info", json_of_sender (analyze_sender []))])),
     [EvAuth; EvList; EvGet "18c2f"; EvClassify (JStr "Hello &amp; welcome")]).
Proof.
  apply (fetch_gmail_success (sample_bert (9 # 10) (1 # 10)) (fun s => s)
           (one_unread nested_message) tt (mkList (Some [mkRef "18c2f"]))
           (mkRef "18c2f") [] (mkMessage (Some "Hello &amp; welcome") (Some nested_message))
           nested_message ""
           (mkResult "Legitimate" (py_round ((9 # 10) * 100) 2))); reflexivity.
Defined.

(** ** The token file *)

Section TokenFacts.

Import Account.

Ltac split_outcomes :=
  repeat (match goal with
          | |- context [match ?x with _ => _ end] =>
              lazymatch x with
              | context [match _ with _ => _ end] => fail
              | _ => destruct x eqn:?
              end
          end; cbn [fst snd token_file steps] in *).

(** What [get_gmail_service] leaves in [token.json] when it raises. *)
Lemma login_failure_token (env : Env) (w : World) (e : exn) :
  fst (get_gmail_service env w) = inl e ->
  token_file (snd (get_gmail_service env w)) = token_file w
  \/ (exists c,
         run_local_server env = inr c
         /\ (to_json env c = inl e \/ write env = inl e)
         /\ token_file (snd (get_gmail_service env w)) = Some "")
  \/ (exists c text,
         run_local_server env = inr c
         /\ to_json env c = inr text
         /\ build env = inl e
         /\ token_file (snd (get_gmail_service env w)) = Some text).
Proof.
  cbv [get_gmail_service bind read_token ret lift consent_flow step_of write_token].
  destruct w as [tf st]. cbn [token_file steps].
  split_outcomes; intro H; try discriminate H; injection H as <-;
    first [ solve [left; reflexivity]
          | solve [right; left; eexists; split; [reflexivity|]; split; [auto | reflexivity]]
          | solve [right; right; eexists; eexists; repeat split; eauto] ].
Qed.

(** The steps [get_gmail_service] adds. *)
Lemma login_steps (env : Env) (w : World) :
  exists l,
    steps (snd (get_gmail_service env w)) = (steps w ++ l)%list
    /\ (l = [] \/ l = [Consent] \/ l = [Consent; WriteToken])
    /\ (forall text c,
           token_file w = Some text ->
           from_authorized_user_file env text = inr c ->
           valid c = true -> l = []).
Proof.
  cbv [get_gmail_service bind read_token ret lift consent_flow step_of write_token].
  destruct w as [tf st]. cbn [token_file steps].
  split_outcomes;
    first [ exists []; split; [rewrite app_nil_r; reflexivity|]; split; [auto|];
            intros; reflexivity
          | exists [Consent]; split; [reflexivity|]; split; [auto|];
            intros ? ? T L V; first [discriminate T | injection T as <-; congruence]
          | exists [Consent; WriteToken];
            split; [rewrite <- app_assoc; reflexivity|]; split; [auto|];
            intros ? ? T L V; first [discriminate T | injection T as <-; congruence] ].
Qed.

End TokenFacts.

(** X13.  When [get_gmail_service] raises, [token.json] is as it was, with
    two exceptions, both after a successful consent flow: the file was
    opened for writing and [to_json] or [write] raised, which leaves it
    empty; or the new credential was saved and [build] raised afterwards.
    The consent flow runs at most once, and not at all when the stored
    credential loads as valid. *)
Theorem login_failure_and_token (env : Account.Env) (w : Account.World) :
  (forall e,
      fst (Account.get_gmail_service env w) = inl e ->
      Account.token_file (snd (Account.get_gmail_service env w)) = Account.token_file w
      \/ (exists c,
             Account.run_local_server env = inr c
             /\ (Account.to_json env c = inl e \/ Account.write env = inl e)
             /\ Account.token_file (snd (Account.get_gmail_service env w)) = Some "")
      \/ (exists c text,
             Account.run_local_server env = inr c
             /\ Account.to_json env c = inr text
             /\ Account.build env = inl e
             /\ Account.token_file (snd (Account.get_gmail_service env w)) = Some text))
  /\ (exists l,
         Account.steps (snd (Account.get_gmail_service env w)) = (Account.steps w ++ l)%list
         /\ (l = [] \/ l = [Account.Consent] \/ l = [Account.Consent; Account.WriteToken])
         /\ (forall text c,
                Account.token_file w = Some text ->
                Account.from_authorized_user_file env text = inr c ->
                valid c = true -> l = [])).
Proof.
  split; [intro e; apply login_failure_token | apply login_steps].
Qed.

Lemma login_failure_and_token_witness :
  Account.token_file
    (snd (Account.get_gmail_service full_disk_env
            (Account.mkWorld (Some "ya29.stale") [])))
  = Some "ya29.stale"
  \/ (exists c,
         Account.run_local_server full_disk_env = inr c
         /\ (Account.to_json full_disk_env c
             = inl (RemoteError "[Errno 28] No space left on device")
             \/ Account.write full_disk_env
                = inl (RemoteError "[Errno 28] No space left on device"))
         /\ Account.token_file
              (snd (Account.get_gmail_service full_disk_env
                      (Account.mkWorld (Some "ya29.stale") [])))
            = Some "")
  \/ (exists c text,
         Account.run_local_server full_disk_env = inr c
         /\ Account.to_json full_disk_env c = inr text
         /\ Account.build full_disk_env
            = inl (RemoteError "[Errno 28] No space left on device")
         /\ Account.token_file
              (snd (Account.get_gmail_service full_disk_env
                      (Account.mkWorld (Some "ya29.stale") [])))
            = Some text).
Proof.
  apply (proj1 (login_failure_and_token full_disk_env
                  (Account.mkWorld (Some "ya29.stale") []))
               (RemoteError "[Errno 28] No space left on device")).
  reflexivity.
Defined.

(** ** The scripts [gmail_test.py] and [gmail_fetch.py] *)

Section ScriptFacts.

Import Account.

(** Printing the snippets leaves the token file alone and runs no consent
    flow. *)
Lemma print_snippets_quiet (env : Env) (ms : list MessageRef) (w : World) :
  token_file (snd (GmailTest.print_snippets env ms w)) = token_file w
  /\ exists l,
      steps (snd (GmailTest.print_snippets env ms w)) = (steps w ++ l)%list
      /\ ~ In Consent l.
Proof.
  revert w. induction ms as [|m ms IH]; intro w; simpl.
  - split; [reflexivity|]. exists []. rewrite app_nil_r. auto.
  - cbv [bind step_of GmailTest.print ret raise].
    destruct (get_message env (id m)) as [e|msg]; cbn.
    { split; [reflexivity|]. exists [GetMessage (id m)]. split; [reflexivity|].
      intros [H | []]. discriminate H. }
    destruct (snippet msg) as [s|]; cbn.
    2:{ split; [reflexivity|]. exists [GetMessage (id m)]. split; [reflexivity|].
        intros [H | []]. discriminate H. }
    set (w' := {| token_file := token_file w; steps := _ |}).
    destruct (IH w') as [T [l [S N]]].
    split; [rewrite T; reflexivity|].
    exists (GetMessage (id m) :: Print ("- " ++ s) :: l).
    split.
    + rewrite S. subst w'. cbn [steps]. rewrite <- !app_assoc. reflexivity.
    + intros [H | [H | H]]; [discriminate H | discriminate H | exact (N H)].
Qed.

Lemma print_snippets_all (env : Env) (ms : list MessageRef) (snippets : list string)
      (w : World) :
  Forall2 (listed env) ms snippets ->
  GmailTest.print_snippets env ms w
  = (inr tt, mkWorld (token_file w) (steps w ++ snippet_steps ms snippets)).
Proof.
  intro F. revert w. induction F as [|m s ms ss [msg [G S]] _ IH]; intro w.
  - cbn. rewrite app_nil_r. destruct w; reflexivity.
  - cbn [GmailTest.print_snippets]. cbv [bind step_of GmailTest.print ret].
    rewrite G, S, IH. cbn [token_file steps].
    unfold snippet_steps. cbn [combine flat_map fst snd app].
    rewrite <- !app_assoc. reflexivity.
Qed.

Lemma fetch_loop_all (env : Env) (ms : list MessageRef) (texts acc : list string)
      (w : World) :
  Forall2 (fetched env) ms texts ->
  GmailFetch.fetch_loop env ms acc w
  = (inr (acc ++ texts)%list, mkWorld (token_file w) (steps w ++ read_steps ms)).
Proof.
  intro F. revert acc w.
  induction F as [|m t ms ts [full [b [G [B [T M]]]]] _ IH]; intros acc w.
  - cbn. rewrite !app_nil_r. destruct w; reflexivity.
  - cbn [GmailFetch.fetch_loop]. cbv [bind step_of lift].
    rewrite G, B, M, IH. cbn [token_file steps]. subst t.
    unfold read_steps. cbn [flat_map app].
    rewrite <- !app_assoc. reflexivity.
Qed.

Lemma fetch_loop_stops (env : Env) (pre post : list MessageRef) (m : MessageRef)
      (texts acc : list string) (w : World) (e : exn) :
  Forall2 (fetched env) pre texts ->
  get_message env (id m) = inl e
  \/ (exists full,
         get_message env (id m) = inr full
         /\ GmailFetch.get_body (get_default (payload full) empty_part) = inl e) ->
  GmailFetch.fetch_loop env (pre ++ m :: post) acc w
  = (inl e, mkWorld (token_file w) (steps w ++ read_steps pre ++ [GetMessage (id m)])).
Proof.
  intros F H. revert acc w.
  induction F as [|m' t ms ts [full [b [G [B [T M]]]]] _ IH]; intros acc w.
  - cbn [app GmailFetch.fetch_loop read_steps flat_map]. cbv [bind step_of lift].
    destruct H as [G | [full [G B]]].
    + rewrite G. reflexivity.
    + rewrite G, B. reflexivity.
  - cbn [app GmailFetch.fetch_loop]. cbv [bind step_of lift].
    rewrite G, B, M, IH. cbn [token_file steps].
    unfold read_steps. cbn [flat_map app].
    rewrite <- !app_assoc. reflexivity.
Qed.

Lemma fetch_scan_parts_skip (pre rest : list MessagePart) :
  Forall not_plain pre ->
  GmailFetch.scan_parts (pre ++ rest) = GmailFetch.scan_parts rest.
Proof.
  induction 1 as [|q pre [m [E N]] _ IH]; simpl; [reflexivity|].
  rewrite E, (not_plain_eqb q m E N). exact IH.
Qed.

Lemma scan_parts_agree (ps : list MessagePart) :
  scan_parts ps = GmailFetch.scan_parts ps
  \/ exists pre p post b,
      ps = (pre ++ p :: post)%list
      /\ Forall not_plain pre
      /\ mimeType p = Some "text/plain"
      /\ body p = Some b
      /\ data b = None.
Proof.
  induction ps as [|p ps IH]; simpl; [left; reflexivity|].
  destruct (mimeType p) as [m|] eqn:T; [|left; reflexivity].
  destruct (String.eqb_spec m "text/plain") as [E | N].
  - subst m. destruct (body p) as [b|] eqn:B; [|left; reflexivity].
    destruct (data b) as [d|] eqn:D.
    + left. cbn [get_default]. reflexivity.
    + right. exists [], p, ps, b. repeat split; [constructor | assumption..].
  - destruct IH as [E | [pre [q [post [b [-> [F C]]]]]]]; [left; exact E|].
    right. exists (p :: pre), q, post, b.
    split; [reflexivity|]. split; [constructor; [exists m; auto | exact F] | exact C].
Qed.

End ScriptFacts.

(** X14.  A stored credential that loads as expired, with a refresh token:
    [get_gmail_service] does not refresh it, it runs the consent flow and
    saves what the flow returns; [main] of [gmail_test.py] refreshes it,
    saves the refreshed credential and runs no consent flow. *)
Theorem expired_token_consent_or_refresh
    (env : Account.Env) (w : Account.World) (stored : string) (c : Credentials) :
  Account.token_file w = Some stored ->
  Account.from_authorized_user_file env stored = inr c ->
  valid c = false -> expired c = true -> has_refresh_token c = true ->
  (forall c2 text,
      Account.from_client_secrets_file env = inr tt ->
      Account.run_local_server env = inr c2 ->
      Account.open_token env = inr tt ->
      Account.to_json env c2 = inr text ->
      Account.write env = inr tt ->
      Account.build env = inr tt ->
      Account.get_gmail_service env w
      = (inr c2,
         Account.mkWorld (Some text)
           (Account.steps w ++ [Account.Consent; Account.WriteToken])))
  /\ (forall c' text,
         Account.refresh env c = inr c' ->
         Account.open_token env = inr tt ->
         Account.to_json env c' = inr text ->
         Account.write env = inr tt ->
         Account.token_file (snd (GmailTest.main env w)) = Some text
         /\ exists l,
             Account.steps (snd (GmailTest.main env w))
             = (Account.steps w ++ Account.Refresh :: Account.WriteToken :: l)%list
             /\ ~ In Account.Consent l).
Proof.
  intros T P V E R. split.
  - intros c2 text S L O J W B.
    cbv [Account.get_gmail_service Account.bind Account.read_token Account.ret Account.lift
         Account.consent_flow Account.step_of Account.write_token].
    rewrite T, P, V, S, L, O. cbn. rewrite J, W, B. cbn.
    rewrite <- app_assoc. reflexivity.
  - intros c' text F O J W.
    cbv [GmailTest.main GmailTest.renew GmailTest.print Account.bind Account.read_token
         Account.ret Account.lift Account.step_of Account.write_token].
    rewrite T, P, V, E, R. cbn [andb]. rewrite F. cbn [Account.token_file Account.steps].
    rewrite O, J, W. cbn [Account.token_file Account.steps].
    destruct (Account.build env); cbn.
    { split; [reflexivity|]. exists []. rewrite <- app_assoc. split; [reflexivity | auto]. }
    destruct (Account.list_messages env [] 5) as [|results]; cbn.
    { split; [reflexivity|]. exists [Account.ListMessages [] 5].
      rewrite <- !app_assoc. split; [reflexivity|].
      intros [H | []]. discriminate H. }
    destruct (get_default (messages results) []) as [|m ms];
      cbn [Account.token_file Account.steps fst snd].
    { cbn. split; [reflexivity|].
      exists [Account.ListMessages [] 5; Account.Print "No messages found."].
      rewrite <- !app_assoc. split; [reflexivity|].
      intros [H | [H | []]]; discriminate H. }
    set (w' := {| Account.token_file := Some text; Account.steps := _ |}).
    destruct (print_snippets_quiet env (m :: ms) w') as [T' [l [S N]]].
    split; [rewrite T'; reflexivity|].
    exists (Account.ListMessages [] 5 :: Account.Print "Latest Emails:" :: l).
    split.
    + rewrite S. subst w'. cbn [Account.steps]. rewrite <- !app_assoc. reflexivity.
    + intros [H | [H | H]]; [discriminate H | discriminate H | exact (N H)].
Qed.

Lemma expired_token_consent_or_refresh_witness :
  Account.get_gmail_service (sample_env fresh_credentials ["a"; "b"])
    (Account.mkWorld (Some "ya29.stale") [])
  = (inr fresh_credentials,
     Account.mkWorld (Some "ya29.fresh") [Account.Consent; Account.WriteToken])
  /\ (Account.token_file
        (snd (GmailTest.main (sample_env fresh_credentials ["a"; "b"])
                (Account.mkWorld (Some "ya29.stale") [])))
      = Some "ya29.refreshed"
      /\ exists l,
          Account.steps
            (snd (GmailTest.main (sample_env fresh_credentials ["a"; "b"])
                    (Account.mkWorld (Some "ya29.stale") [])))
          = ([] ++ Account.Refresh :: Account.WriteToken :: l)%list
          /\ ~ In Account.Consent l).
Proof.
  split.
  - apply (proj1 (expired_token_consent_or_refresh
                    (sample_env fresh_credentials ["a"; "b"])
                    (Account.mkWorld (Some "ya29.stale") [])
                    "ya29.stale" stale_credentials
                    eq_refl eq_refl eq_refl eq_refl eq_refl)
                 fresh_credentials "ya29.fresh"); reflexivity.
  - apply (proj2 (expired_token_consent_or_refresh
                    (sample_env fresh_credentials ["a"; "b"])
                    (Account.mkWorld (Some "ya29.stale") [])
                    "ya29.stale" stale_credentials
                    eq_refl eq_refl eq_refl eq_refl eq_refl)
                 (mkCredentials "ya29.refreshed" true false (Some "1//refresh"))
                 "ya29.refreshed");
      reflexivity.
Defined.

(** X15.  [get_body] of [gmail_fetch.py] and [extract_body] of [app.py]
    differ on one kind of payload only: when the first of its own parts
    that is not of another type is a plain part whose body has no [data],
    [get_body] raises [KeyError('data')] and [extract_body] returns the
    empty string.  On every other payload the two return the same string
    or raise the same exception. *)
Theorem get_body_agrees_with_extract_body (payload : MessagePart) :
  (plain_part_without_data payload ->
   GmailFetch.get_body payload = inl (KeyError "data")
   /\ extract_body payload = inr "")
  /\ (~ plain_part_without_data payload ->
      extract_body payload = GmailFetch.get_body payload).
Proof.
  split.
  - intros [pre [p [post [b [P [F [T [B D]]]]]]]].
    unfold extract_body, GmailFetch.get_body. rewrite P.
    rewrite (scan_parts_first pre post p b F T B), fetch_scan_parts_skip by exact F.
    cbn [GmailFetch.scan_parts]. rewrite T, B, D. split; reflexivity.
  - intro N. unfold extract_body, GmailFetch.get_body.
    destruct (parts payload) as [ps|] eqn:P; [|reflexivity].
    destruct (scan_parts_agree ps) as [E | [pre [p [post [b [-> C]]]]]].
    + rewrite E. reflexivity.
    + exfalso. apply N. exists pre, p, post, b. split; [exact P | exact C].
Qed.

Lemma get_body_agrees_with_extract_body_witness :
  GmailFetch.get_body
    (container "multipart/alternative"
       [mkPart (Some "text/html") None (Some (mkBody (Some "PGI-"))) None;
        mkPart (Some "text/plain") None (Some (mkBody None)) None])
  = inl (KeyError "data")
  /\ extract_body
       (container "multipart/alternative"
          [mkPart (Some "text/html") None (Some (mkBody (Some "PGI-"))) None;
           mkPart (Some "text/plain") None (Some (mkBody None)) None])
     = inr "".
Proof.
  apply (proj1 (get_body_agrees_with_extract_body
                  (container "multipart/alternative"
                     [mkPart (Some "text/html") None (Some (mkBody (Some "PGI-"))) None;
                      mkPart (Some "text/plain") None (Some (mkBody None)) None]))).
  exists [mkPart (Some "text/html") None (Some (mkBody (Some "PGI-"))) None],
         (mkPart (Some "text/plain") None (Some (mkBody None)) None), [], (mkBody None).
  split; [reflexivity|].
  split; [constructor; [|constructor]; exists "text/html"; split;
          [reflexivity | discriminate]|].
  repeat split.
Defined.

(** X16.  When every listed message is fetched, decoded and marked read,
    [fetch_latest_email_text] returns one text per message, in the order
    listed, and its calls after authentication are the listing of at most
    [n] unread messages and then, message by message, the fetch followed
    by the marking. *)
Theorem fetch_latest_email_text_all
    (env : Account.Env) (n : nat) (w w1 : Account.World) (c : Credentials)
    (results : ListResponse) (texts : list string) :
  Account.get_gmail_service env w = (inr c, w1) ->
  Account.list_messages env ["UNREAD"] n = inr results ->
  Forall2 (fetched env) (get_default (messages results) []) texts ->
  GmailFetch.fetch_latest_email_text env n w
  = (inr texts,
     Account.mkWorld (Account.token_file w1)
       (Account.steps w1
        ++ Account.ListMessages ["UNREAD"] n
           :: read_steps (get_default (messages results) []))).
Proof.
  intros S L F.
  cbv [GmailFetch.fetch_latest_email_text Account.bind Account.step_of].
  rewrite S, L, (fetch_loop_all env _ texts [] _ F).
  cbn [Account.token_file Account.steps app]. rewrite <- app_assoc. reflexivity.
Qed.

Lemma fetch_latest_email_text_all_witness :
  GmailFetch.fetch_latest_email_text (sample_env fresh_credentials ["a"; "b"; "c"]) 2
    (Account.mkWorld (Some "ya29.fresh") [])
  = (inr ["hi"; "hi"],
     Account.mkWorld (Some "ya29.fresh")
       [Account.ListMessages ["UNREAD"] 2;
        Account.GetMessage "a"; Account.MarkRead "a";
        Account.GetMessage "b"; Account.MarkRead "b"]).
Proof.
  apply (fetch_latest_email_text_all (sample_env fresh_credentials ["a"; "b"; "c"]) 2
           (Account.mkWorld (Some "ya29.fresh") [])
           (Account.mkWorld (Some "ya29.fresh") [])
           fresh_credentials (mkList (Some [mkRef "a"; mkRef "b"])) ["hi"; "hi"]).
  - reflexivity.
  - reflexivity.
  - repeat constructor.
    + exists (mkMessage (Some "a") (Some (plain_part "aGk="))), "hi".
      repeat split; reflexivity.
    + exists (mkMessage (Some "b") (Some (plain_part "aGk="))), "hi".
      repeat split; reflexivity.
Defined.

(** X17.  [fetch_latest_email_text] has no handler for exceptions: when a
    message cannot be fetched, or its body does not decode, the exception
    leaves the function and no text is returned, though the messages
    before it have been marked read; the failing message and those after
    it are not marked. *)
Theorem fetch_latest_email_text_stops
    (env : Account.Env) (n : nat) (w w1 : Account.World) (c : Credentials)
    (results : ListResponse) (pre post : list MessageRef) (m : MessageRef)
    (texts : list string) (e : exn) :
  Account.get_gmail_service env w = (inr c, w1) ->
  Account.list_messages env ["UNREAD"] n = inr results ->
  get_default (messages results) [] = (pre ++ m :: post)%list ->
  Forall2 (fetched env) pre texts ->
  Account.get_message env (id m) = inl e
  \/ (exists full,
         Account.get_message env (id m) = inr full
         /\ GmailFetch.get_body (get_default (payload full) empty_part) = inl e) ->
  GmailFetch.fetch_latest_email_text env n w
  = (inl e,
     Account.mkWorld (Account.token_file w1)
       (Account.steps w1
        ++ Account.ListMessages ["UNREAD"] n
           :: read_steps pre ++ [Account.GetMessage (id m)])).
Proof.
  intros S L M F H.
  cbv [GmailFetch.fetch_latest_email_text Account.bind Account.step_of].
  rewrite S, L, M, (fetch_loop_stops env pre post m texts [] _ e F H).
  cbn [Account.token_file Account.steps app]. rewrite <- !app_assoc. reflexivity.
Qed.

Lemma fetch_latest_email_text_stops_witness :
  GmailFetch.fetch_latest_email_text flaky_env 3
    (Account.mkWorld (Some "ya29.fresh") [])
  = (inl (RemoteError "Requested entity was not found."),
     Account.mkWorld (Some "ya29.fresh")
       ([] ++ Account.ListMessages ["UNREAD"] 3
           :: read_steps [mkRef "a"] ++ [Account.GetMessage "b"])).
Proof.
  apply (fetch_latest_email_text_stops flaky_env 3
           (Account.mkWorld (Some "ya29.fresh") [])
           (Account.mkWorld (Some "ya29.fresh") [])
           fresh_credentials (mkList (Some [mkRef "a"; mkRef "b"; mkRef "c"]))
           [mkRef "a"] [mkRef "c"] (mkRef "b") ["hi"]
           (RemoteError "Requested entity was not found.")).
  - reflexivity.
  - reflexivity.
  - reflexivity.
  - repeat constructor.
    exists (mkMessage (Some "a") (Some (plain_part "aGk="))), "hi".
    repeat split; reflexivity.
  - left. reflexivity.
Defined.

(** X18.  With a valid stored credential, [main] lists at most five
    messages without a label filter and prints either the one line
    [No messages found.], or [Latest Emails:] followed, for each message in
    order, by a dash and its snippet; the token file is not touched. *)
Theorem main_prints_snippets
    (env : Account.Env) (w : Account.World) (stored : string) (c : Credentials)
    (results : ListResponse) (snippets : list string) :
  Account.token_file w = Some stored ->
  Account.from_authorized_user_file env stored = inr c ->
  valid c = true ->
  Account.build env = inr tt ->
  Account.list_messages env [] 5 = inr results ->
  Forall2 (listed env) (get_default (messages results) []) snippets ->
  GmailTest.main env w
  = (inr tt,
     Account.mkWorld (Account.token_file w)
       (Account.steps w
        ++ Account.ListMessages [] 5
           :: match get_default (messages results) [] with
              | [] => [Account.Print "No messages found."]
              | ms => Account.Print "Latest Emails:" :: snippet_steps ms snippets
              end)).
Proof.
  intros T P V B L F.
  cbv [GmailTest.main Account.bind Account.read_token Account.ret Account.lift
       Account.step_of GmailTest.print].
  rewrite T, P, V, B, L. cbn [Account.token_file Account.steps].
  destruct F as [|m s ms ss H F].
  - cbn [Account.token_file Account.steps].
    rewrite ?T, <- ?app_assoc. reflexivity.
  - rewrite (print_snippets_all env (m :: ms) (s :: ss)) by (constructor; assumption).
    cbn [Account.token_file Account.steps].
    rewrite ?T, <- ?app_assoc. reflexivity.
Qed.

Lemma main_prints_snippets_witness :
  GmailTest.main (sample_env fresh_credentials ["Your invoice"; "Hello"])
    (Account.mkWorld (Some "ya29.fresh") [])
  = (inr tt,
     Account.mkWorld (Some "ya29.fresh")
       [Account.ListMessages [] 5; Account.Print "Latest Emails:";
        Account.GetMessage "Your invoice"; Account.Print "- Your invoice";
        Account.GetMessage "Hello"; Account.Print "- Hello"]).
Proof.
  apply (main_prints_snippets (sample_env fresh_credentials ["Your invoice"; "Hello"])
           (Account.mkWorld (Some "ya29.fresh") [])
           "ya29.fresh" fresh_credentials
           (mkList (Some [mkRef "Your invoice"; mkRef "Hello"]))
           ["Your invoice"; "Hello"]).
  - reflexivity.
  - reflexivity.
  - reflexivity.
  - reflexivity.
  - reflexivity.
  - repeat constructor.
    + exists (mkMessage (Some "Your invoice") (Some (plain_part "aGk="))).
      split; reflexivity.
    + exists (mkMessage (Some "Hello") (Some (plain_part "aGk="))).
      split; reflexivity.
Defined.
